(** * wcmatch: pattern normalisation, flag resolution and [filter]

    A shallow embedding of [st3/wcmatch/util.py] ([norm_pattern], the two
    scanning expressions [RE_NORM] and [RE_BNORM], [BACK_SLASH_TRANSLATION])
    and of [st3/wcmatch/fnmatch.py] ([_flag_transform], [fnmatch], [filter]),
    with the properties the specification states about them. *)

From Stdlib Require Import ZArith List Bool Lia Ascii String Arith.
Import ListNotations.
Local Open Scope Z_scope.

(** ** Units, patterns and errors *)

(** A pattern is a [str] (a sequence of code points) or a [bytes] value (a
    sequence of byte values); both are sequences of integer units. *)
Inductive pattern : Type :=
| Str (s : list Z)
| Bytes (b : list Z).

Definition units (p : pattern) : list Z :=
  match p with Str s => s | Bytes b => b end.

(** [isinstance(pattern, bytes)] *)
Definition isinstance_bytes (p : pattern) : bool :=
  match p with Str _ => false | Bytes _ => true end.

Definition wrap (is_bytes : bool) (l : list Z) : pattern :=
  if is_bytes then Bytes l else Str l.

Definition ord (c : ascii) : Z := Z.of_nat (nat_of_ascii c).

Definition str (s : string) : list Z := map ord (list_ascii_of_string s).

(** The exceptions [norm_pattern] can leave with: the [SyntaxError] it raises
    itself (with the value and the position formatted into its message); the
    [KeyError] of a dictionary access, with the key, and of
    [unicodedata.lookup], with its message; the [UnicodeEncodeError] of
    [unicodedata.lookup]; the [ValueError] of [chr], [bytes] and [int]; the
    [OverflowError] of [chr]. *)
Inductive error : Type :=
| SyntaxError (value : list Z) (pos : nat)
| KeyError (key : list Z)
| ValueError
| OverflowError
| UnicodeEncodeError.

Inductive result (A : Type) : Type :=
| Ok (a : A)
| Raise (e : error).
Arguments Ok {A} a.
Arguments Raise {A} e.

Definition bind {A B} (r : result A) (k : A -> result B) : result B :=
  match r with Ok a => k a | Raise e => Raise e end.

Notation "x <- r ;; k" := (bind r (fun x => k))
  (at level 61, r at next level, right associativity).

(** ** The Unicode character database

    [re]'s [\d] on text, [int] on text and [unicodedata.lookup] read the
    interpreter's Unicode tables, which are no part of this repository: they
    are an interface here.  [decimal c] is the digit value of a code point
    outside ASCII that is a decimal digit; [lookup name] is what
    [unicodedata.lookup(name)] does: the string it returns, or the
    exception it raises (the [KeyError] with its message for a name it does
    not know, the [UnicodeEncodeError] for a name it cannot encode). *)
Class UnicodeData : Type := {
  decimal : Z -> option Z;
  lookup : list Z -> result (list Z);
  decimal_range : forall c d, decimal c = Some d -> 0 <= d <= 9
}.

(** ** Character classes *)

Definition elem (c : Z) (cls : string) : bool := existsb (Z.eqb c) (str cls).

Definition in_range (c : Z) (lo hi : ascii) : bool :=
  (ord lo <=? c) && (c <=? ord hi).

Definition is_octal (c : Z) : bool := in_range c "0" "7".

Section Scanning.
Context {ucd : UnicodeData}.

(** [\d]: the ASCII digits in a bytes expression; every decimal digit of the
    Unicode database in a text expression. *)
Definition is_digit (is_bytes : bool) (c : Z) : bool :=
  in_range c "0" "9" ||
  (negb is_bytes && (128 <=? c) &&
   match decimal c with Some _ => true | None => false end).

(** [[\da-fA-F]] *)
Definition is_hex (is_bytes : bool) (c : Z) : bool :=
  is_digit is_bytes c || in_range c "a" "f" || in_range c "A" "F".

(** [[\da-fA-F]{k}] at the head of [s] *)
Fixpoint hexes (is_bytes : bool) (k : nat) (s : list Z) : bool :=
  match k with
  | O => true
  | S k' =>
      match s with
      | c :: s' => is_hex is_bytes c && hexes is_bytes k' s'
      | [] => false
      end
  end.

(** [[0-7]{1,k}], greedy: the number of octal digits taken at the head. *)
Fixpoint octals (k : nat) (s : list Z) : nat :=
  match k with
  | O => O
  | S k' =>
      match s with
      | c :: s' => if is_octal c then S (octals k' s') else O
      | [] => O
      end
  end.

(** [[^}]*?\}]: the number of units before the first closing brace. *)
Fixpoint to_brace (s : list Z) : option nat :=
  match s with
  | [] => None
  | c :: s' =>
      if c =? ord "}" then Some O
      else match to_brace s' with Some k => Some (S k) | None => None end
  end.

(** ** The two scanning expressions

    The alternative of the expression that matched; the capture groups of
    the match follow from it (see [group]). *)
Inductive alt : Type :=
| ASlash     (* (/|\\/) *)
| AStd       (* (\\[abfnrtv\\]) *)
| AHex       (* (\\(?:U..|u..|x..|...)) through U, u or x *)
| AOct       (* (\\(?:...|([0-7]{1,3}))) *)
| AName      (* (\\N\{[^}]*?\}) *)
| AOther     (* (\\[^NUux]), (\\[^x]) *)
| APrefix.   (* (\\[NUux]), (\\[x]) *)

(** [RE_NORM.match] anchored at the head of [s]: the alternative taken and
    the length of the match.  The alternatives are tried in the order of the
    expression:
<<
    (/|\\/)|
    (\\[abfnrtv\\])|
    (\\(?:U[\da-fA-F]{8}|u[\da-fA-F]{4}|x[\da-fA-F]{2}|([0-7]{1,3})))|
    (\\N\{[^}]*?\})|
    (\\[^NUux]) |
    (\\[NUux])
>> *)
Definition RE_NORM_match (s : list Z) : option (alt * nat) :=
  match s with
  | [] => None
  | c0 :: tl =>
      if c0 =? ord "/" then Some (ASlash, 1%nat)
      else if c0 =? ord "\" then
        match tl with
        | [] => None
        | c :: rest =>
            if c =? ord "/" then Some (ASlash, 2%nat)
            else if elem c "abfnrtv\" then Some (AStd, 2%nat)
            else if (c =? ord "U") && hexes false 8 rest then Some (AHex, 10%nat)
            else if (c =? ord "u") && hexes false 4 rest then Some (AHex, 6%nat)
            else if (c =? ord "x") && hexes false 2 rest then Some (AHex, 4%nat)
            else if is_octal c then Some (AOct, S (octals 3 tl))
            else if c =? ord "N" then
              match rest with
              | b :: name =>
                  if b =? ord "{" then
                    match to_brace name with
                    | Some k => Some (AName, (k + 4)%nat)
                    | None => Some (APrefix, 2%nat)
                    end
                  else Some (APrefix, 2%nat)
              | [] => Some (APrefix, 2%nat)
              end
            else if negb (elem c "NUux") then Some (AOther, 2%nat)
            else Some (APrefix, 2%nat)
        end
      else None
  end.

(** [RE_BNORM.match] anchored at the head of [s]:
<<
    (/|\\/)|
    (\\[abfnrtv\\])|
    (\\(?:x[\da-fA-F]{2}|([0-7]{1,3})))|
    (\\[^x]) |
    (\\[x])
>> *)
Definition RE_BNORM_match (s : list Z) : option (alt * nat) :=
  match s with
  | [] => None
  | c0 :: tl =>
      if c0 =? ord "/" then Some (ASlash, 1%nat)
      else if c0 =? ord "\" then
        match tl with
        | [] => None
        | c :: rest =>
            if c =? ord "/" then Some (ASlash, 2%nat)
            else if elem c "abfnrtv\" then Some (AStd, 2%nat)
            else if (c =? ord "x") && hexes true 2 rest then Some (AHex, 4%nat)
            else if is_octal c then Some (AOct, S (octals 3 tl))
            else if negb (elem c "x") then Some (AOther, 2%nat)
            else Some (APrefix, 2%nat)
        end
      else None
  end.

Inductive regex : Type := RE_NORM | RE_BNORM.

(** [RE_BNORM if is_bytes else RE_NORM] *)
Definition re_of (is_bytes : bool) : regex :=
  if is_bytes then RE_BNORM else RE_NORM.

Definition match_at (pat : regex) (s : list Z) : option (alt * nat) :=
  match pat with
  | RE_NORM => RE_NORM_match s
  | RE_BNORM => RE_BNORM_match s
  end.

(** A match object: the expression, where the match starts, the alternative
    taken and the matched text ([m.group(0)]). *)
Record re_match : Type := MatchObj {
  m_re : regex;
  m_start : nat;
  m_alt : alt;
  m_text : list Z
}.

(** [m.group(k)]: [None] for a group that took no part in the match.  Group
    4 is the octal digits inside group 3 in both expressions; the groups
    after it are numbered as each expression has them. *)
Definition group (m : re_match) (k : nat) : option (list Z) :=
  let t := m_text m in
  match k, m_alt m, m_re m with
  | 0%nat, _, _ => Some t
  | 1%nat, ASlash, _ => Some t
  | 2%nat, AStd, _ => Some t
  | 3%nat, AHex, _ => Some t
  | 3%nat, AOct, _ => Some t
  | 4%nat, AOct, _ => Some (skipn 1 t)
  | 5%nat, AName, RE_NORM => Some t
  | 6%nat, AOther, RE_NORM => Some t
  | 7%nat, APrefix, RE_NORM => Some t
  | 5%nat, AOther, RE_BNORM => Some t
  | 6%nat, APrefix, RE_BNORM => Some t
  | _, _, _ => None
  end.

(** [m.start(k)] for a group that matched. *)
Definition start (m : re_match) (k : nat) : nat :=
  match k with
  | 4%nat => S (m_start m)
  | _ => m_start m
  end.

(** Truth value of [m.group(k)]: false for [None] and for the empty string. *)
Definition truthy (g : option (list Z)) : bool :=
  match g with
  | Some (_ :: _) => true
  | _ => false
  end.

Definition text_of (g : option (list Z)) : list Z :=
  match g with Some t => t | None => [] end.

(** ** [re.sub]

    The input cut into the non-overlapping matches, leftmost first, and the
    units between them. *)
Inductive segment : Type :=
| Lit (c : Z)
| Tok (m : re_match).

(** The scan at offset [pos], with [skip] units of the last match still to
    pass over. *)
Fixpoint scan (pat : regex) (skip pos : nat) (s : list Z) : list segment :=
  match s with
  | [] => []
  | c :: s' =>
      match skip with
      | S k => scan pat k (S pos) s'
      | O =>
          match match_at pat s with
          | Some (a, n) =>
              Tok (MatchObj pat pos a (firstn n s)) :: scan pat (pred n) (S pos) s'
          | None => Lit c :: scan pat O (S pos) s'
          end
      end
  end.

Definition finditer (pat : regex) (s : list Z) : list segment := scan pat 0 0 s.

Definition replace (repl : re_match -> result (list Z)) (g : segment)
  : result (list Z) :=
  match g with
  | Lit c => Ok [c]
  | Tok m => repl m
  end.

(** The replacements are computed left to right; the first exception ends
    the substitution. *)
Fixpoint join (repl : re_match -> result (list Z)) (gs : list segment)
  : result (list Z) :=
  match gs with
  | [] => Ok []
  | g :: gs' =>
      o <- replace repl g ;;
      rest <- join repl gs' ;;
      Ok (o ++ rest)
  end.

Definition re_sub (pat : regex) (repl : re_match -> result (list Z))
  (s : list Z) : result (list Z) :=
  join repl (finditer pat s).

(** ** [int], [chr], [bytes] *)

(** The value of one digit for [int(s, base)]. *)
Definition digit_value (is_bytes : bool) (c : Z) : option Z :=
  if in_range c "0" "9" then Some (c - ord "0")
  else if in_range c "a" "z" then Some (c - ord "a" + 10)
  else if in_range c "A" "Z" then Some (c - ord "A" + 10)
  else if negb is_bytes && (128 <=? c) then decimal c
  else None.

Fixpoint int_digits (is_bytes : bool) (base acc : Z) (s : list Z) : option Z :=
  match s with
  | [] => Some acc
  | c :: s' =>
      match digit_value is_bytes c with
      | Some d =>
          if d <? base then int_digits is_bytes base (acc * base + d) s'
          else None
      | None => None
      end
  end.

(** [int(s, base)] on a string of digits. *)
Definition int (is_bytes : bool) (s : list Z) (base : Z) : result Z :=
  match s with
  | [] => Raise ValueError
  | _ =>
      match int_digits is_bytes base 0 s with
      | Some v => Ok v
      | None => Raise ValueError
      end
  end.

(** [chr(i)]: the argument is taken as a C [int]; [OverflowError] when it
    does not fit one, [ValueError] when it fits and is no code point. *)
Definition chr (i : Z) : result (list Z) :=
  if (0 <=? i) && (i <=? 1114111) then Ok [i]
  else if (-2147483648 <=? i) && (i <=? 2147483647) then Raise ValueError
  else Raise OverflowError.

(** [bytes([i])] *)
Definition bytes1 (i : Z) : result (list Z) :=
  if (0 <=? i) && (i <? 256) then Ok [i] else Raise ValueError.

(** ** [BACK_SLASH_TRANSLATION] *)

Definition BACK_SLASH_TRANSLATION : list (pattern * pattern) :=
  [ (Str (str "\a"), Str [7]);
    (Str (str "\b"), Str [8]);
    (Str (str "\f"), Str [12]);
    (Str (str "\r"), Str [13]);
    (Str (str "\t"), Str [9]);
    (Str (str "\n"), Str [10]);
    (Str (str "\v"), Str [11]);
    (Str (str "\\"), Str (str "\\"));
    (Bytes (str "\a"), Bytes [7]);
    (Bytes (str "\b"), Bytes [8]);
    (Bytes (str "\f"), Bytes [12]);
    (Bytes (str "\r"), Bytes [13]);
    (Bytes (str "\t"), Bytes [9]);
    (Bytes (str "\n"), Bytes [10]);
    (Bytes (str "\v"), Bytes [11]);
    (Bytes (str "\\"), Bytes (str "\\")) ].

Definition list_eqb (a b : list Z) : bool :=
  if list_eq_dec Z.eq_dec a b then true else false.

Definition pattern_eqb (p q : pattern) : bool :=
  match p, q with
  | Str a, Str b => list_eqb a b
  | Bytes a, Bytes b => list_eqb a b
  | _, _ => false
  end.

(** [d[key]] *)
Fixpoint getitem (d : list (pattern * pattern)) (key : pattern)
  : result pattern :=
  match d with
  | [] => Raise (KeyError (units key))
  | (k, v) :: d' => if pattern_eqb k key then Ok v else getitem d' key
  end.

(** ** [norm_pattern] *)

Section NormPattern.
Variables (is_bytes normalize is_raw_chars ignore_escape : bool).

Definition slash : list Z := str "\".
Definition multi_slash : list Z := slash ++ slash ++ slash ++ slash.

(** The inner function [norm] of [norm_pattern]. *)
Definition norm (m : re_match) : result (list Z) :=
  if truthy (group m 1) then
    let char := text_of (group m 1) in
    Ok (if normalize && (1 <? List.length char)%nat then multi_slash else char)
  else if truthy (group m 2) then
    if is_raw_chars then
      v <- getitem BACK_SLASH_TRANSLATION (wrap is_bytes (text_of (group m 2))) ;;
      Ok (units v)
    else Ok (text_of (group m 2))
  else if is_raw_chars && truthy (group m 4) then
    v <- int is_bytes (text_of (group m 4)) 8 ;;
    if is_bytes then bytes1 (Z.land v 255) else chr v
  else if is_raw_chars && truthy (group m 3) then
    v <- int is_bytes (skipn 2 (text_of (group m 3))) 16 ;;
    if is_bytes then bytes1 v else chr v
  else if is_raw_chars && negb is_bytes && truthy (group m 5) then
    let g := text_of (group m 5) in
    let name := firstn (List.length g - 4) (skipn 3 g) in
    lookup name
  else if negb is_raw_chars
          || truthy (group m (if is_bytes then 5%nat else 6%nat)) then
    let char := text_of (group m 0) in
    Ok (if ignore_escape then slash ++ char else char)
  else
    let value := text_of (group m (if is_bytes then 6%nat else 7%nat)) in
    let pos := start m (if is_bytes then 6%nat else 7%nat) in
    Raise (SyntaxError value pos).

End NormPattern.

Definition norm_pattern (p : pattern)
  (normalize is_raw_chars ignore_escape : bool) : result pattern :=
  let is_bytes := isinstance_bytes p in
  let pat := re_of is_bytes in
  if negb normalize && negb is_raw_chars && negb ignore_escape then Ok p
  else
    out <- re_sub pat (norm is_bytes normalize is_raw_chars ignore_escape)
             (units p) ;;
    Ok (wrap is_bytes out).

(** *** [norm_pattern] with what it does on the way

    The same function, with the number of times the expression is tried at a
    position of the pattern counted, and with the [return] statement that
    gave the result: [return pattern], which hands back the argument itself,
    or [return pat.sub(norm, pattern)]. *)
Inductive returned_by : Type :=
| ReturnPattern
| ReturnSub.

(** The scan with its attempts counted: [k] attempts were made before. *)
Fixpoint scan_counted (pat : regex) (skip pos : nat) (s : list Z) (k : nat)
  : list segment * nat :=
  match s with
  | [] => ([], k)
  | c :: s' =>
      match skip with
      | S j => scan_counted pat j (S pos) s' k
      | O =>
          match match_at pat s with
          | Some (a, n) =>
              let (gs, k') := scan_counted pat (pred n) (S pos) s' (S k) in
              (Tok (MatchObj pat pos a (firstn n s)) :: gs, k')
          | None =>
              let (gs, k') := scan_counted pat O (S pos) s' (S k) in
              (Lit c :: gs, k')
          end
      end
  end.

Definition norm_pattern_counted (p : pattern)
  (normalize is_raw_chars ignore_escape : bool) (k : nat)
  : (result pattern * returned_by) * nat :=
  let is_bytes := isinstance_bytes p in
  let pat := re_of is_bytes in
  if negb normalize && negb is_raw_chars && negb ignore_escape
  then ((Ok p, ReturnPattern), k)
  else
    let (gs, k') := scan_counted pat 0 0 (units p) k in
    ((out <- join (norm is_bytes normalize is_raw_chars ignore_escape) gs ;;
      Ok (wrap is_bytes out), ReturnSub), k').

(** The alphabet an expression scans. *)
Definition re_bytes (pat : regex) : bool :=
  match pat with RE_NORM => false | RE_BNORM => true end.

(** The number of hexadecimal digits an escape letter asks for. *)
Definition hex_len (pat : regex) (c : Z) : option nat :=
  match pat with
  | RE_NORM =>
      if c =? 85 then Some 8%nat
      else if c =? 117 then Some 4%nat
      else if c =? 120 then Some 2%nat
      else None
  | RE_BNORM => if c =? 120 then Some 2%nat else None
  end.

(** The letters that open an escape with a required suffix. *)
Definition is_prefix (pat : regex) (c : Z) : bool :=
  match pat with
  | RE_NORM => elem c "NUux"
  | RE_BNORM => elem c "x"
  end.

(** What follows an escape letter completes the escape. *)
Definition completes (pat : regex) (c : Z) (rest : list Z) : bool :=
  match hex_len pat c with
  | Some k => hexes (re_bytes pat) k rest
  | None =>
      match rest with
      | b :: name =>
          (b =? 123) && match to_brace name with Some _ => true | None => false end
      | [] => false
      end
  end.

(** The matches of the two expressions: the alternative, the matched text
    and the input after it. *)
Inductive shape (pat : regex) : alt -> list Z -> list Z -> Prop :=
| Sh_slash1 rest : shape pat ASlash [47] rest
| Sh_slash2 rest : shape pat ASlash [92; 47] rest
| Sh_std c rest : elem c "abfnrtv\" = true -> shape pat AStd [92; c] rest
| Sh_hex c k ds rest :
    hex_len pat c = Some k -> List.length ds = k ->
    hexes (re_bytes pat) k ds = true ->
    shape pat AHex (92 :: c :: ds) rest
| Sh_oct c ds rest :
    is_octal c = true -> octals 2 (ds ++ rest) = List.length ds ->
    shape pat AOct (92 :: c :: ds) rest
| Sh_name name rest :
    pat = RE_NORM -> to_brace (name ++ [125]) = Some (List.length name) ->
    shape pat AName (92 :: 78 :: 123 :: name ++ [125]) rest
| Sh_other c rest :
    c <> 47 -> elem c "abfnrtv\" = false -> is_octal c = false ->
    is_prefix pat c = false ->
    shape pat AOther [92; c] rest
| Sh_prefix c rest :
    is_prefix pat c = true -> completes pat c rest = false ->
    shape pat APrefix [92; c] rest.

Definition alt_eq_dec (a b : alt) : {a = b} + {a <> b}.
Proof. decide equality. Defined.

(** The alternatives whose match is replaced, with [is_raw_chars], by what
    its digits or its name denote. *)
Definition decodes (a : alt) : bool :=
  match a with
  | AHex | AOct | AName => true
  | _ => false
  end.

(** No backslash comes out of decoding the match. *)
Definition clean (is_bytes normalize is_raw_chars : bool) (g : segment) : bool :=
  match g with
  | Lit _ => true
  | Tok m =>
      if is_raw_chars && decodes (m_alt m) then
        match norm is_bytes normalize is_raw_chars false m with
        | Ok o => negb (existsb (Z.eqb 92) o)
        | Raise _ => true
        end
      else true
  end.

(** [q] is [s] with some of its [\/] made four backslashes. *)
Inductive slashed : list Z -> list Z -> Prop :=
| slashed_nil : slashed [] []
| slashed_cons c s q : slashed s q -> slashed (c :: s) (c :: q)
| slashed_sep s q : slashed s q -> slashed (92 :: 47 :: s) (92 :: 92 :: 92 :: 92 :: q).

(** The matches [norm_pattern] replaces in [p], and the units between. *)
Definition segments (p : pattern) : list segment :=
  finditer (re_of (isinstance_bytes p)) (units p).

(** No numeric, unicode or named escape of [p] is decoded to a backslash. *)
Definition no_decoded_backslash (p : pattern) (normalize is_raw_chars : bool)
  : bool :=
  forallb (clean (isinstance_bytes p) normalize is_raw_chars) (segments p).

(** The characters the standard escapes are replaced by. *)
Definition standard_escapes : list (Z * list Z) :=
  [ (ord "a", [7]); (ord "b", [8]); (ord "f", [12]); (ord "n", [10]);
    (ord "r", [13]); (ord "t", [9]); (ord "v", [11]);
    (ord "\", [ord "\"; ord "\"]) ].

(** Normalising [o] gives [o] back, wherever the scan is taken to start. *)
Definition fixed_point (is_bytes normalize is_raw_chars : bool) (o : list Z)
  : Prop :=
  forall pos,
    join (norm is_bytes normalize is_raw_chars false)
      (scan (re_of is_bytes) 0 pos o) = Ok o.

End Scanning.

(** * [fnmatch.py] *)

(** ** The interface of [_wcparse]

    The flag constants, the pattern compiler and the compiled matcher live in
    [_wcparse]; they are an interface here.  [compile] and [matcher_match]
    are functions of their arguments; either can raise. [matcher_match]
    gives the truth value of what [obj.match(filename)] returns. *)
Class Wcparse : Type := {
  CASE : Z;
  IGNORECASE : Z;
  RAWCHARS : Z;
  NEGATE : Z;
  MINUSNEGATE : Z;
  DOTMATCH : Z;
  EXTMATCH : Z;
  BRACE : Z;
  SPLIT : Z;
  NEGATEALL : Z;
  FORCEWIN : Z;
  FORCEUNIX : Z;
  patterns : Type;
  limit : Type;
  exclude : Type;
  filename : Type;
  matcher : Type;
  exn : Type;
  compile : patterns -> Z -> limit -> exclude -> exn + matcher;
  matcher_match : matcher -> filename -> exn + bool
}.

Section Fnmatch.
Context {wc : Wcparse}.

Definition FLAG_MASK : Z :=
  Z.lor CASE (Z.lor IGNORECASE (Z.lor RAWCHARS (Z.lor NEGATE (Z.lor MINUSNEGATE
  (Z.lor DOTMATCH (Z.lor EXTMATCH (Z.lor BRACE (Z.lor SPLIT (Z.lor NEGATEALL
  (Z.lor FORCEWIN FORCEUNIX)))))))))).

(** Truth value of an [int]. *)
Definition nonzero (z : Z) : bool := negb (z =? 0).

Definition _flag_transform (flags : Z) : Z :=
  let flags :=
    if nonzero (Z.land flags FORCEUNIX) && nonzero (Z.land flags FORCEWIN)
    then Z.lxor flags (Z.lor FORCEWIN FORCEUNIX)
    else flags in
  Z.land flags FLAG_MASK.

(** [l1] is [l2] with some elements left out, the others in their order. *)
Inductive subseq {A : Type} : list A -> list A -> Prop :=
| subseq_nil : subseq [] []
| subseq_skip x l1 l2 : subseq l1 l2 -> subseq l1 (x :: l2)
| subseq_cons x l1 l2 : subseq l1 l2 -> subseq (x :: l1) (x :: l2).

(** A computation that may raise and counts the calls of
    [_wcparse.compile] made so far. *)
Definition M (A : Type) : Type := nat -> (exn + A) * nat.

Definition ret {A} (a : A) : M A := fun n => (inr a, n).

Definition mbind {A B} (c : M A) (k : A -> M B) : M B :=
  fun n =>
    match c n with
    | (inr a, n') => k a n'
    | (inl e, n') => (inl e, n')
    end.

Notation "x <~ c ;; k" := (mbind c (fun x => k))
  (at level 61, c at next level, right associativity).

Definition call_compile (ps : patterns) (flags : Z) (lim : limit)
  (ex : exclude) : M matcher :=
  fun n => (compile ps flags lim ex, S n).

Definition call_match (obj : matcher) (f : filename) : M bool :=
  fun n => (matcher_match obj f, n).

Definition fnmatch (f : filename) (ps : patterns) (flags : Z) (lim : limit)
  (ex : exclude) : M bool :=
  let flags := _flag_transform flags in
  obj <~ call_compile ps flags lim ex ;;
  b <~ call_match obj f ;;
  ret b.

(** The loop of [filter]: [matches] is the list built so far. *)
Fixpoint filter_loop (obj : matcher) (filenames matches : list filename)
  : M (list filename) :=
  match filenames with
  | [] => ret matches
  | f :: rest =>
      b <~ call_match obj f ;;
      filter_loop obj rest (if b then matches ++ [f] else matches)
  end.

Definition filter (filenames : list filename) (ps : patterns) (flags : Z)
  (lim : limit) (ex : exclude) : M (list filename) :=
  let matches := [] in
  let flags := _flag_transform flags in
  obj <~ call_compile ps flags lim ex ;;
  filter_loop obj filenames matches.

(** [fnmatch] returned [True]. *)
Definition fnmatch_true (ps : patterns) (flags : Z) (lim : limit)
  (ex : exclude) (f : filename) : bool :=
  match fst (fnmatch f ps flags lim ex 0%nat) with
  | inr true => true
  | _ => false
  end.

Definition match_true (obj : matcher) (f : filename) : bool :=
  match matcher_match obj f with
  | inr true => true
  | _ => false
  end.

End Fnmatch.

(** The message of the [KeyError] of [unicodedata.lookup]. *)
Definition undefined_name (name : list Z) : list Z :=
  str "undefined character name '" ++ name ++ str "'".

(** A small database: the Arabic-Indic digits four (U+0664) and one
    (U+0661), and two names; a name with a surrogate in it cannot be
    encoded. *)
#[local] Program Instance small_ucd : UnicodeData := {|
  decimal := fun c => if c =? 1636 then Some 4 else if c =? 1633 then Some 1 else None;
  lookup := fun name =>
    if existsb (fun c => (55296 <=? c) && (c <=? 57343)) name
    then Raise UnicodeEncodeError
    else if list_eqb name (str "REVERSE SOLIDUS") then Ok (str "\")
    else if list_eqb name (str "LATIN SMALL LETTER A") then Ok (str "a")
    else Raise (KeyError (undefined_name name))
|}.
Next Obligation.
  destruct (c =? 1636); [inversion H; lia|].
  destruct (c =? 1633); [inversion H; lia| discriminate].
Qed.


(** A compiler that takes one literal name for its pattern set, never
    raises, and whose matcher matches that name alone; the flags are twelve
    successive bits. *)
#[local] Instance literal_wcparse : Wcparse := {|
  CASE := 1;
  IGNORECASE := 2;
  RAWCHARS := 4;
  NEGATE := 8;
  MINUSNEGATE := 16;
  DOTMATCH := 32;
  EXTMATCH := 64;
  BRACE := 128;
  SPLIT := 256;
  NEGATEALL := 512;
  FORCEWIN := 1024;
  FORCEUNIX := 2048;
  patterns := list Z;
  limit := nat;
  exclude := unit;
  filename := list Z;
  matcher := list Z;
  exn := unit;
  compile := fun ps _ _ _ => inr ps;
  matcher_match := fun obj f => inr (list_eqb obj f)
|}.


(** * Further definitions *)

(** A match of the separator alternative longer than one unit: [\\/]. *)
Definition is_escaped_separator (g : segment) : bool :=
  match g with
  | Tok m =>
      match m_alt m with
      | ASlash => (1 <? List.length (m_text m))%nat
      | _ => false
      end
  | Lit _ => false
  end.

Definition escaped_separators (gs : list segment) : nat :=
  List.length (List.filter is_escaped_separator gs).

(** A unit of the alphabet: a byte, or a code point. *)
Definition unit_ok (is_bytes : bool) (c : Z) : Prop :=
  0 <= c <= (if is_bytes then 255 else 1114111).

(** ** [StringIter] *)

(** [seq[i]] for an [int] index: an index below zero counts from the end;
    [None] stands for [IndexError]. *)
Definition getitem_seq (s : list Z) (i : Z) : option Z :=
  let len := Z.of_nat (List.length s) in
  if (0 <=? i) && (i <? len) then nth_error s (Z.to_nat i)
  else if (- len <=? i) && (i <? 0) then nth_error s (Z.to_nat (len + i))
  else None.

(** The exceptions the methods of [StringIter] leave with; [RewindError] is
    the [ValueError] of [rewind]. *)
Inductive iter_error : Type :=
| StopIteration
| RewindError
| IndexError.

Record StringIter : Type := MkStringIter {
  _string : list Z;
  _index : Z
}.

(** [StringIter(string)] *)
Definition StringIter_init (string : list Z) : StringIter :=
  MkStringIter string 0.

(** A method: its result or its exception, and the iterator after it. *)
Definition method (A : Type) : Type := StringIter -> (iter_error + A) * StringIter.

Definition index (self : StringIter) : Z := _index self.

Definition previous : method Z :=
  fun self =>
    match getitem_seq (_string self) (_index self - 1) with
    | Some c => (inr c, self)
    | None => (inl IndexError, self)
    end.

Definition advance (count : Z) : method unit :=
  fun self => (inr tt, MkStringIter (_string self) (_index self + count)).

Definition rewind (count : Z) : method unit :=
  fun self =>
    if _index self <? count then (inl RewindError, self)
    else (inr tt, MkStringIter (_string self) (_index self - count)).

Definition iternext : method Z :=
  fun self =>
    match getitem_seq (_string self) (_index self) with
    | Some c => (inr c, MkStringIter (_string self) (_index self + 1))
    | None => (inl StopIteration, self)
    end.

(** [__next__] *)
Definition next : method Z := iternext.

(** [list(it)]: [__next__] until [StopIteration]; the units read and the
    iterator left.  [fuel] bounds the number of calls. *)
Fixpoint drain (fuel : nat) (self : StringIter) : list Z * StringIter :=
  match fuel with
  | O => ([], self)
  | S fuel' =>
      match next self with
      | (inr c, self') =>
          let (cs, final) := drain fuel' self' in (c :: cs, final)
      | (inl _, self') => ([], self')
      end
  end.

Section StringIterMatch.
(** A compiled expression: [pattern_match pt string pos] is the span
    [(m.start(), m.end())] of [pt.match(string, pos)], or [None]. *)
Variable Pattern : Type.
Variable pattern_match : Pattern -> list Z -> Z -> option (Z * Z).

(** [match]: the match object is its span here. *)
Definition StringIter_match (pt : Pattern) : method (option (Z * Z)) :=
  fun self =>
    let m := pattern_match pt (_string self) (_index self) in
    match m with
    | Some (_, m_end) => (inr m, MkStringIter (_string self) m_end)
    | None => (inr m, self)
    end.

End StringIterMatch.

(** The index is an offset into the string, its end included. *)
Definition in_bounds (self : StringIter) : Prop :=
  0 <= _index self <= Z.of_nat (List.length (_string self)).

(** Where [pt.match(string, pos)] starts for an [int] [pos]. *)
Definition clamp (s : list Z) (pos : Z) : Z :=
  Z.max 0 (Z.min pos (Z.of_nat (List.length s))).

(** ** [_fspath] *)

(** The values [_fspath] is given: a [str], a [bytes], or an object of some
    other type, with the name of its type and what the [__fspath__] of its
    type does when called on it, if the type has one. *)
Inductive py_error : Type :=
| TypeError (msg : string)
| AttributeError (msg : string)
| OtherError (name : string).

Inductive py_value : Type :=
| PyStr (s : list Z)
| PyBytes (b : list Z)
| PyObject (type_name : string) (fspath_method : py_method)
with py_method : Type :=
| NoMethod
| MethodRaises (e : py_error)
| MethodReturns (v : py_value).

(** [type(v).__name__] *)
Definition type_name_of (v : py_value) : string :=
  match v with
  | PyStr _ => "str"
  | PyBytes _ => "bytes"
  | PyObject name _ => name
  end.

(** [isinstance(v, (str, bytes))] *)
Definition is_str_or_bytes (v : py_value) : bool :=
  match v with
  | PyStr _ | PyBytes _ => true
  | PyObject _ _ => false
  end.

Definition _fspath (path : py_value) : py_error + py_value :=
  match path with
  | PyStr _ | PyBytes _ => inr path
  | PyObject name NoMethod =>
      inl (TypeError
             ("expected str, bytes or os.PathLike object, not " ++ name))
  | PyObject name (MethodRaises e) => inl e
  | PyObject name (MethodReturns path_repr) =>
      if is_str_or_bytes path_repr then inr path_repr
      else
        inl (TypeError
               ("expected " ++ name ++ ".__fspath__() to return str or bytes, "
                ++ "not " ++ type_name_of path_repr))
  end.

(** ** [Immutable] *)

Section ImmutableModel.
(** The values of attributes, and the names the type of the object has room
    for: the slots its class declares. *)
Variable Value : Type.
Variable type_name : string.
Variable allowed : string -> bool.

(** The message of the [AttributeError] of [object.__setattr__]. *)
Definition no_attribute (name : string) : string :=
  "'" ++ type_name ++ "' object has no attribute '" ++ name ++ "'".

(** The attributes an object holds. *)
Definition attributes : Type := list (string * Value).

(** [getattr(self, name)]; [None] stands for [AttributeError]. *)
Fixpoint getattr (self : attributes) (name : string) : option Value :=
  match self with
  | [] => None
  | (k, v) :: rest => if String.eqb k name then Some v else getattr rest name
  end.

(** [object.__setattr__(self, name, value)], what
    [super(Immutable, self).__setattr__] is. *)
Definition object_setattr (self : attributes) (name : string) (value : Value)
  : py_error + attributes :=
  if allowed name then inr ((name, value) :: self)
  else inl (AttributeError (no_attribute name)).

(** [Immutable.__init__] with its keyword arguments, from an object with
    no attribute set. *)
Fixpoint Immutable_init_from (self : attributes) (kwargs : list (string * Value))
  : py_error + attributes :=
  match kwargs with
  | [] => inr self
  | (k, v) :: rest =>
      match object_setattr self k v with
      | inr self' => Immutable_init_from self' rest
      | inl e => inl e
      end
  end.

Definition Immutable_init (kwargs : list (string * Value))
  : py_error + attributes :=
  Immutable_init_from [] kwargs.

(** [Immutable.__setattr__(self, name, value)] *)
Definition Immutable_setattr (self : attributes) (name : string) (value : Value)
  : py_error + attributes :=
  inl (AttributeError "Class is immutable!").

End ImmutableModel.

(** ** [is_hidden] *)

Inductive platform_name : Type := win32 | darwin | other_platform.

(** What [is_hidden] asks of the interpreter and the system: the platform,
    [os.path.basename], and the three probes of a file's attributes, each
    of which may raise. *)
Class System : Type := {
  sys_platform : platform_name;
  PY35 : bool;
  os_path_basename : pattern -> pattern;
  os_error : Type;
  lstat_st_file_attributes : pattern -> os_error + Z;
  GetFileAttributes : pattern -> Z;
  lstat_st_flags : pattern -> os_error + Z;
  UF_HIDDEN : Z
}.

(** What [is_hidden] returns: a [bool], or the [int] of [attrs & 0x2]. *)
Inductive hidden_value : Type :=
| HBool (b : bool)
| HInt (z : Z).

(** [f[:1] in ('.', b'.')] *)
Definition starts_with_dot (f : pattern) : bool :=
  list_eqb (firstn 1 (units f)) [46].

Definition is_hidden {sys : System} (path : pattern)
  : os_error + hidden_value :=
  let f := os_path_basename path in
  if starts_with_dot f then inr (HBool true)
  else
    match sys_platform with
    | win32 =>
        let FILE_ATTRIBUTE_HIDDEN := 2 in
        if PY35 then
          match lstat_st_file_attributes path with
          | inr attrs =>
              inr (HBool (negb (Z.land attrs FILE_ATTRIBUTE_HIDDEN =? 0)))
          | inl e => inl e
          end
        else
          let attrs := GetFileAttributes path in
          if attrs =? -1 then inr (HBool false)
          else inr (HInt (Z.land attrs FILE_ATTRIBUTE_HIDDEN))
    | darwin =>
        match lstat_st_flags path with
        | inr flags => inr (HBool (negb (Z.land flags UF_HIDDEN =? 0)))
        | inl e => inl e
        end
    | other_platform => inr (HBool false)
    end.

(** Truth value of what [is_hidden] returns. *)
Definition hidden_truth (h : hidden_value) : bool :=
  match h with
  | HBool b => b
  | HInt z => negb (z =? 0)
  end.

(** [s.rfind(c)] from offset [i] on: the highest index of [c], or -1. *)
Fixpoint rfind_from (s : list Z) (c : Z) (i : Z) : Z :=
  match s with
  | [] => -1
  | x :: s' =>
      let later := rfind_from s' c (i + 1) in
      if later =? -1 then (if x =? c then i else -1) else later
  end.

Definition rfind (s : list Z) (c : Z) : Z := rfind_from s c 0.

(** [posixpath.basename]: [i = p.rfind('/') + 1; return p[i:]]. *)
Definition posix_basename (p : pattern) : pattern :=
  let i := rfind (units p) 47 + 1 in
  wrap (isinstance_bytes p) (skipn (Z.to_nat i) (units p)).

(** ** [translate], [escape], [is_magic] *)

(** The rest of the interface of [_wcparse]. *)
Class WcparseApi {wc : Wcparse} : Type := {
  translated : Type;
  wc_translate : patterns -> Z -> limit -> exclude -> exn + translated;
  wc_escape : pattern -> bool -> exn + pattern;
  wc_is_magic : pattern -> Z -> exn + bool
}.

Section FnmatchApi.
Context {wc : Wcparse} {api : WcparseApi}.

Definition translate (ps : patterns) (flags : Z) (lim : limit) (ex : exclude)
  : exn + translated :=
  let flags := _flag_transform flags in
  wc_translate ps flags lim ex.

Definition escape (p : pattern) : exn + pattern := wc_escape p false.

Definition is_magic (p : pattern) (flags : Z) : exn + bool :=
  let flags := _flag_transform flags in
  wc_is_magic p flags.

End FnmatchApi.

(** ** Concrete systems and a concrete [_wcparse] *)

(** A Linux system: no probe is ever asked, so each raises. *)
#[local] Instance posix_system : System := {|
  sys_platform := other_platform;
  PY35 := false;
  os_path_basename := posix_basename;
  os_error := unit;
  lstat_st_file_attributes := fun _ => inl tt;
  GetFileAttributes := fun _ => -1;
  lstat_st_flags := fun _ => inl tt;
  UF_HIDDEN := 32768
|}.

(** A Windows system before Python 3.5 with one hidden file. *)
Definition windows_system : System := {|
  sys_platform := win32;
  PY35 := false;
  os_path_basename := posix_basename;
  os_error := unit;
  lstat_st_file_attributes := fun _ => inl tt;
  GetFileAttributes := fun p =>
    if list_eqb (units p) (str "C:/pagefile.sys") then 38 else 32;
  lstat_st_flags := fun _ => inl tt;
  UF_HIDDEN := 32768
|}.

#[local] Instance literal_api : WcparseApi (wc := literal_wcparse) := {|
  translated := list Z;
  wc_translate := fun ps _ _ _ => inr ps;
  wc_escape := fun p _ => inr p;
  wc_is_magic := fun p flags => inr (negb (Z.land flags 4 =? 0))
|}.

(** An expression that matches any one unit. *)
Definition any_unit (_ : unit) (s : list Z) (pos : Z) : option (Z * Z) :=
  let a := clamp s pos in
  if a <? Z.of_nat (List.length s) then Some (a, a + 1) else None.

(** * Properties *)

Ltac in_list := vm_compute; repeat (first [left; reflexivity | right]).

Ltac case_if :=
  match goal with
  | H : context [if ?b then _ else _] |- _ => destruct b eqn:?
  | |- context [if ?b then _ else _] => destruct b eqn:?
  end.

Ltac inv H := inversion H; subst; clear H.

(** Evaluate the character codes and string constants of the goal. *)
Ltac ords :=
  repeat match goal with
  | |- context [ord ?c] =>
      let v := eval vm_compute in (ord c) in change (ord c) with v
  | H : context [ord ?c] |- _ =>
      let v := eval vm_compute in (ord c) in change (ord c) with v in H
  | |- context [str ?c] =>
      let v := eval vm_compute in (str c) in change (str c) with v
  | H : context [str ?c] |- _ =>
      let v := eval vm_compute in (str c) in change (str c) with v in H
  end.

(** Evaluate the class tests on character constants. *)
Ltac evalb :=
  repeat match goal with
  | |- context [elem ?c ?s] =>
      let v := eval vm_compute in (elem c s) in
      match v with
      | true => change (elem c s) with true
      | false => change (elem c s) with false
      end
  | |- context [is_octal ?c] =>
      let v := eval vm_compute in (is_octal c) in
      match v with
      | true => change (is_octal c) with true
      | false => change (is_octal c) with false
      end
  end; cbn [negb andb orb].

Ltac bools :=
  repeat match goal with
  | H : _ && _ = true |- _ => apply andb_prop in H as [? ?]
  | H : _ || _ = false |- _ => apply orb_false_elim in H as [? ?]
  | H : negb _ = true |- _ => apply negb_true_iff in H
  | H : negb _ = false |- _ => apply negb_false_iff in H
  | H : (_ =? _) = true |- _ => apply Z.eqb_eq in H
  | H : (_ =? _) = false |- _ => apply Z.eqb_neq in H
  | H : (_ <=? _) = true |- _ => apply Z.leb_le in H
  | H : (_ <=? _) = false |- _ => apply Z.leb_gt in H
  | H : (_ <? _) = true |- _ => apply Z.ltb_lt in H
  | H : (_ <? _) = false |- _ => apply Z.ltb_ge in H
  end.

(** ** Character classes *)

Lemma elem_std c :
  elem c "abfnrtv\" = true <->
  c = 97 \/ c = 98 \/ c = 102 \/ c = 110 \/ c = 114 \/ c = 116 \/ c = 118 \/ c = 92.
Proof.
  unfold elem; ords; cbn [existsb].
  rewrite !orb_true_iff, !Z.eqb_eq. intuition discriminate.
Qed.

Lemma elem_prefix c :
  elem c "NUux" = true <-> c = 78 \/ c = 85 \/ c = 117 \/ c = 120.
Proof.
  unfold elem; ords; cbn [existsb].
  rewrite !orb_true_iff, !Z.eqb_eq. intuition discriminate.
Qed.

Lemma elem_x c : elem c "x" = true <-> c = 120.
Proof.
  unfold elem; ords; cbn [existsb].
  rewrite !orb_true_iff, !Z.eqb_eq. intuition discriminate.
Qed.

Lemma is_octal_spec c : is_octal c = true <-> 48 <= c <= 55.
Proof.
  unfold is_octal, in_range; ords.
  rewrite andb_true_iff, !Z.leb_le. tauto.
Qed.

Lemma in_range_spec c lo hi : in_range c lo hi = true <-> ord lo <= c <= ord hi.
Proof. unfold in_range. rewrite andb_true_iff, !Z.leb_le. tauto. Qed.

(** ** The scan *)

Section ScanFacts.
Context {ucd : UnicodeData}.

Lemma octals_le k s : (octals k s <= k)%nat /\ (octals k s <= List.length s)%nat.
Proof.
  revert s; induction k as [|k IH]; intros s; simpl; [lia|].
  destruct s as [|c s]; simpl; [lia|].
  destruct (is_octal c); [|lia]. specialize (IH s). lia.
Qed.

Lemma octals_firstn k s :
  octals k (firstn (octals k s) s ++ skipn (octals k s) s)
  = List.length (firstn (octals k s) s).
Proof.
  rewrite firstn_skipn, length_firstn. pose proof (octals_le k s). lia.
Qed.

Lemma to_brace_lt s k : to_brace s = Some k -> (k < List.length s)%nat.
Proof.
  revert k; induction s as [|c s IH]; intros k; simpl; [discriminate|].
  destruct (c =? ord "}"); [intros H; inv H; lia|].
  destruct (to_brace s) as [j|]; [|discriminate].
  intros H; inv H. specialize (IH j eq_refl). lia.
Qed.

(** The name and its closing brace, cut off the input. *)
Lemma to_brace_split s k :
  to_brace s = Some k ->
  exists name rest, s = (name ++ [125]) ++ rest /\ List.length name = k /\
    to_brace (name ++ [125]) = Some k.
Proof.
  revert k; induction s as [|c s IH]; intros k; simpl; [discriminate|].
  destruct (c =? ord "}") eqn:E.
  - intros H; inv H. ords; bools. subst c. exists [], s. repeat split.
  - destruct (to_brace s) as [j|]; [|discriminate].
    intros H; inv H. destruct (IH j eq_refl) as (name & rest & -> & <- & Hb).
    exists (c :: name), rest. repeat split. simpl. now rewrite E, Hb.
Qed.

Lemma to_brace_app name rest k :
  to_brace name = Some k -> to_brace (name ++ rest) = Some k.
Proof.
  revert k; induction name as [|c s IH]; intros k; simpl; [discriminate|].
  destruct (c =? ord "}"); [auto|].
  destruct (to_brace s) as [j|]; [|discriminate].
  intros H; inv H. now rewrite (IH j eq_refl).
Qed.

Lemma hexes_length ib k s : hexes ib k s = true -> (k <= List.length s)%nat.
Proof.
  revert s; induction k as [|k IH]; intros s; simpl; [lia|].
  destruct s as [|c s]; [discriminate|].
  intros H. apply andb_prop in H as [_ H]. apply IH in H. simpl. lia.
Qed.

Lemma hexes_split ib k s :
  hexes ib k s = true ->
  exists ds rest, s = ds ++ rest /\ List.length ds = k /\ hexes ib k ds = true.
Proof.
  revert s; induction k as [|k IH]; intros s; simpl.
  - exists [], s. auto.
  - destruct s as [|c s]; [discriminate|].
    intros H. apply andb_prop in H as [Hc H].
    destruct (IH s H) as (ds & rest & -> & <- & Hd).
    exists (c :: ds), rest. simpl. rewrite Hc, Hd. auto.
Qed.

Lemma hexes_app ib k ds rest :
  hexes ib k ds = true -> hexes ib k (ds ++ rest) = true.
Proof.
  revert ds; induction k as [|k IH]; intros ds; simpl; [auto|].
  destruct ds as [|c ds]; [discriminate|]. simpl.
  intros H. apply andb_prop in H as [-> H]. now rewrite IH.
Qed.


(** A match of either expression has one of the shapes. *)
Lemma match_at_shape pat s a n :
  match_at pat s = Some (a, n) ->
  exists t rest, s = t ++ rest /\ List.length t = n /\ shape pat a t rest.
Proof.
  destruct s as [|c0 [|c rest]].
  - destruct pat; discriminate.
  - destruct pat; cbn [match_at RE_NORM_match RE_BNORM_match]; intros H;
      repeat case_if; try discriminate; inv H; ords; bools; subst;
      exists [47], []; repeat split; constructor.
  - destruct pat; cbn [match_at RE_NORM_match RE_BNORM_match]; intros H.
    all: destruct (c0 =? ord "/") eqn:E0;
      [inv H; ords; bools; subst; exists [47], (c :: rest);
       repeat split; constructor|].
    all: destruct (c0 =? ord "\") eqn:E1; [|discriminate]; ords; bools; subst c0.
    all: destruct (c =? 47) eqn:E2;
      [inv H; bools; subst; exists [92; 47], rest; repeat split; constructor|].
    all: destruct (elem c "abfnrtv\") eqn:E3;
      [inv H; exists [92; c], rest; repeat split; now constructor|].
    + destruct ((c =? 85) && hexes false 8 rest) eqn:E4.
      { inv H. apply andb_prop in E4 as [Ec Eh]. bools. subst c.
        destruct (hexes_split _ _ _ Eh) as (ds & r & -> & Hl & Hd).
        exists (92 :: 85 :: ds), r. repeat split; [simpl; lia|].
        now apply Sh_hex with (k := 8%nat). }
      destruct ((c =? 117) && hexes false 4 rest) eqn:E5.
      { inv H. apply andb_prop in E5 as [Ec Eh]. bools. subst c.
        destruct (hexes_split _ _ _ Eh) as (ds & r & -> & Hl & Hd).
        exists (92 :: 117 :: ds), r. repeat split; [simpl; lia|].
        now apply Sh_hex with (k := 4%nat). }
      destruct ((c =? 120) && hexes false 2 rest) eqn:E6.
      { inv H. apply andb_prop in E6 as [Ec Eh]. bools. subst c.
        destruct (hexes_split _ _ _ Eh) as (ds & r & -> & Hl & Hd).
        exists (92 :: 120 :: ds), r. repeat split; [simpl; lia|].
        now apply Sh_hex with (k := 2%nat). }
      destruct (is_octal c) eqn:E7.
      { change (octals 3 (c :: rest))
          with (if is_octal c then S (octals 2 rest) else O) in H.
        rewrite E7 in H. remember (octals 2 rest) as j eqn:Hj. inv H.
        exists (92 :: c :: firstn (octals 2 rest) rest), (skipn (octals 2 rest) rest).
        repeat split.
        - now rewrite <- !app_comm_cons, firstn_skipn.
        - cbn [List.length]. rewrite length_firstn.
          pose proof (octals_le 2 rest). lia.
        - constructor; [assumption|apply octals_firstn]. }
      assert (Hpre : forall r, c = 78 -> completes RE_NORM c r = false ->
                exists t rest0, 92 :: c :: r = t ++ rest0 /\ List.length t = 2%nat /\
                  shape RE_NORM APrefix t rest0).
      { intros r -> Hr. exists [92; 78], r. repeat split. now constructor. }
      destruct (c =? 78) eqn:E8.
      { bools. subst c. destruct rest as [|b name].
        - inv H. now apply Hpre.
        - destruct (b =? 123) eqn:E9.
          + destruct (to_brace name) as [k|] eqn:E10.
            * inv H. bools. subst b.
              destruct (to_brace_split _ _ E10) as (nm & r & -> & Hl & Hb).
              exists (92 :: 78 :: 123 :: nm ++ [125]), r. repeat split.
              -- cbn [List.length]. rewrite length_app. cbn [List.length]. lia.
              -- constructor; [reflexivity|]. now rewrite Hl.
            * inv H. apply Hpre; [reflexivity|].
              cbn. now rewrite E9, E10.
          + inv H. apply Hpre; [reflexivity|]. cbn. now rewrite E9. }
      destruct (negb (elem c "NUux")) eqn:E9; inv H; bools.
      { exists [92; c], rest. repeat split. constructor; auto. }
      exists [92; c], rest. repeat split. constructor; [assumption|].
      apply elem_prefix in E9. unfold completes, hex_len.
      bools. destruct E9 as [-> | [-> | [-> | ->]]]; cbn; try congruence.
      * cbn in E4. exact E4.
      * cbn in E5. exact E5.
      * cbn in E6. exact E6.
    + destruct ((c =? 120) && hexes true 2 rest) eqn:E6.
      { inv H. apply andb_prop in E6 as [Ec Eh]. bools. subst c.
        destruct (hexes_split _ _ _ Eh) as (ds & r & -> & Hl & Hd).
        exists (92 :: 120 :: ds), r. repeat split; [simpl; lia|].
        now apply Sh_hex with (k := 2%nat). }
      destruct (is_octal c) eqn:E7.
      { change (octals 3 (c :: rest))
          with (if is_octal c then S (octals 2 rest) else O) in H.
        rewrite E7 in H. remember (octals 2 rest) as j eqn:Hj. inv H.
        exists (92 :: c :: firstn (octals 2 rest) rest), (skipn (octals 2 rest) rest).
        repeat split.
        - now rewrite <- !app_comm_cons, firstn_skipn.
        - cbn [List.length]. rewrite length_firstn.
          pose proof (octals_le 2 rest). lia.
        - constructor; [assumption|apply octals_firstn]. }
      destruct (negb (elem c "x")) eqn:E9; inv H; bools.
      { exists [92; c], rest. repeat split. constructor; auto. }
      exists [92; c], rest. repeat split. constructor; [assumption|].
      apply elem_x in E9. subst c. unfold completes. cbn. cbn in E6. exact E6.
Qed.


Lemma std_not_slash c : elem c "abfnrtv\" = true -> (c =? 47) = false.
Proof. rewrite elem_std. intros H. apply Z.eqb_neq. lia. Qed.

Lemma octal_facts c :
  is_octal c = true ->
  (c =? 47) = false /\ elem c "abfnrtv\" = false /\ (c =? 85) = false /\
  (c =? 117) = false /\ (c =? 120) = false /\ (c =? 78) = false.
Proof.
  rewrite is_octal_spec. intros H.
  repeat split; try (apply Z.eqb_neq; lia).
  destruct (elem c "abfnrtv\") eqn:E; [|reflexivity].
  apply elem_std in E. lia.
Qed.

(** Every shape is the match of its expression, whatever the alternatives
    tried before it. *)
Lemma shape_match pat a t rest :
  shape pat a t rest -> match_at pat (t ++ rest) = Some (a, List.length t).
Proof.
  intros H. destruct H as
    [rest|rest|c rest Hc|c k ds rest Hk Hl Hd|c ds rest Hc Ho
    |name rest Hp Hb|c rest H1 H2 H3 H4|c rest Hc Hn].
  - destruct pat; reflexivity.
  - destruct pat; reflexivity.
  - pose proof (std_not_slash _ Hc) as E.
    destruct pat; cbn [match_at RE_NORM_match RE_BNORM_match app]; ords;
      cbn [Z.eqb Pos.eqb]; now rewrite E, Hc.
  - apply (hexes_app _ _ _ rest) in Hd.
    destruct pat; cbn [hex_len] in Hk; repeat case_if; try discriminate;
      inv Hk; bools; subst c;
      cbn [match_at RE_NORM_match RE_BNORM_match app re_bytes] in *; ords;
      cbn [Z.eqb Pos.eqb andb List.length]; evalb;
      rewrite <- H0 in Hd |- *; now rewrite Hd.
  - destruct (octal_facts _ Hc) as (E1 & E2 & E3 & E4 & E5 & E6).
    destruct pat; cbn [match_at RE_NORM_match RE_BNORM_match app]; ords;
      cbn [Z.eqb Pos.eqb]; rewrite E1, E2, ?E3, ?E4, E5, Hc; cbn [andb];
      change (octals 3 (c :: ds ++ rest))
        with (if is_octal c then S (octals 2 (ds ++ rest)) else O);
      now rewrite Hc, Ho.
  - subst pat. apply (to_brace_app _ rest) in Hb.
    cbn [match_at RE_NORM_match app]. ords. cbn [Z.eqb Pos.eqb andb]. evalb.
    rewrite Hb. cbn [List.length]. rewrite length_app. cbn [List.length].
    do 2 f_equal. lia.
  - apply Z.eqb_neq in H1.
    destruct pat; cbn [match_at RE_NORM_match RE_BNORM_match app is_prefix] in *;
      ords; cbn [Z.eqb Pos.eqb]; rewrite H1, H2, H3.
    + assert (E : (c =? 85) = false /\ (c =? 117) = false /\ (c =? 120) = false
                  /\ (c =? 78) = false).
      { repeat split; apply Z.eqb_neq; intros ->; discriminate. }
      destruct E as (-> & -> & -> & ->). cbn [andb]. now rewrite H4.
    + assert (E : (c =? 120) = false) by (apply Z.eqb_neq; intros ->; discriminate).
      rewrite E. cbn [andb]. now rewrite H4.
  - destruct pat; cbn [is_prefix] in Hc.
    + apply elem_prefix in Hc.
      destruct Hc as [-> | [-> | [-> | ->]]];
        cbn [completes hex_len re_bytes Z.eqb Pos.eqb] in Hn;
        cbn [match_at RE_NORM_match app]; ords;
        cbn [Z.eqb Pos.eqb andb]; evalb;
        rewrite ?Hn; try reflexivity.
      destruct rest as [|b name]; [reflexivity|].
      destruct (b =? 123); [|reflexivity].
      cbn [andb] in Hn. destruct (to_brace name); [discriminate|reflexivity].
    + apply elem_x in Hc. subst c.
      cbn [completes hex_len re_bytes Z.eqb Pos.eqb] in Hn.
      cbn [match_at RE_BNORM_match app]; ords.
      cbn [Z.eqb Pos.eqb andb]; evalb.
      now rewrite Hn.
Qed.


Lemma shape_length pat a t rest : shape pat a t rest -> (1 <= List.length t)%nat.
Proof. destruct 1; cbn [List.length]; lia. Qed.

(** A match is never empty and never runs past the end of the input. *)
Lemma match_at_len pat s a n :
  match_at pat s = Some (a, n) -> (1 <= n <= List.length s)%nat.
Proof.
  intros H. destruct (match_at_shape _ _ _ _ H) as (t & rest & -> & <- & Hs).
  apply shape_length in Hs. rewrite length_app. lia.
Qed.

Lemma match_at_nil pat : match_at pat [] = None.
Proof. destruct pat; reflexivity. Qed.

(** No match starts at a unit other than the two separators' first units,
    nor at a backslash that ends the input. *)
Lemma match_at_none pat c s :
  match_at pat (c :: s) = None <-> c <> 47 /\ (c = 92 -> s = []).
Proof.
  split.
  - intros H. assert (E47 : c <> 47).
    { intros ->. destruct pat; discriminate. }
    split; [assumption|]. intros ->. destruct s as [|d s]; [reflexivity|].
    exfalso. destruct pat; cbn [match_at RE_NORM_match RE_BNORM_match] in H;
      ords; cbn [Z.eqb Pos.eqb] in H; repeat case_if; try discriminate.
    all: destruct s as [|b name]; try discriminate; repeat case_if;
      try discriminate; destruct (to_brace name); discriminate.
  - intros [H1 H2]. apply Z.eqb_neq in H1.
    destruct pat; cbn [match_at RE_NORM_match RE_BNORM_match]; ords; rewrite H1.
    all: destruct (c =? 92) eqn:E; [|reflexivity].
    all: bools; now rewrite (H2 E).
Qed.

(** Passing over [k] units is dropping them. *)
Lemma scan_skip pat k pos s :
  scan pat k pos s = scan pat 0 (pos + k) (skipn k s).
Proof.
  revert pos s; induction k as [|k IH]; intros pos s.
  - simpl. now rewrite Nat.add_0_r.
  - destruct s as [|c s]; [reflexivity|].
    simpl. rewrite IH. f_equal. lia.
Qed.

(** The scan, one match or one unit at a time. *)
Lemma scan_unfold pat pos s :
  scan pat 0 pos s =
  match match_at pat s with
  | Some (a, n) =>
      Tok (MatchObj pat pos a (firstn n s)) :: scan pat 0 (pos + n) (skipn n s)
  | None =>
      match s with
      | [] => []
      | c :: s' => Lit c :: scan pat 0 (S pos) s'
      end
  end.
Proof.
  destruct s as [|c s'].
  - now rewrite match_at_nil.
  - cbn [scan]. destruct (match_at pat (c :: s')) as [[a n]|] eqn:E; [|reflexivity].
    apply match_at_len in E. destruct n as [|n]; [lia|].
    cbn [pred]. rewrite scan_skip. cbn [skipn]. do 2 f_equal. lia.
Qed.

Lemma scan_tok pat pos a t rest :
  shape pat a t rest ->
  scan pat 0 pos (t ++ rest)
  = Tok (MatchObj pat pos a t) :: scan pat 0 (pos + List.length t) rest.
Proof.
  intros H. rewrite scan_unfold, (shape_match _ _ _ _ H).
  rewrite firstn_app, Nat.sub_diag, firstn_all, firstn_O, app_nil_r.
  rewrite skipn_app, Nat.sub_diag, skipn_all, skipn_O. reflexivity.
Qed.

Lemma scan_lit pat pos c s :
  match_at pat (c :: s) = None ->
  scan pat 0 pos (c :: s) = Lit c :: scan pat 0 (S pos) s.
Proof. intros H. now rewrite scan_unfold, H. Qed.

(** The scan follows the input: an induction principle over its steps. *)
Lemma scan_ind pat (P : nat -> list Z -> Prop) :
  (forall pos, P pos []) ->
  (forall pos c s, match_at pat (c :: s) = None -> P (S pos) s -> P pos (c :: s)) ->
  (forall pos a t rest, shape pat a t rest ->
     P (pos + List.length t)%nat rest -> P pos (t ++ rest)) ->
  forall pos s, P pos s.
Proof.
  intros Hnil Hlit Htok pos s.
  remember (List.length s) as len eqn:Hlen.
  revert s Hlen pos; induction len as [len IH] using lt_wf_ind; intros s Hlen pos.
  destruct (match_at pat s) as [[a n]|] eqn:E.
  - destruct (match_at_shape _ _ _ _ E) as (t & rest & -> & <- & Hs).
    apply Htok with (a := a); [assumption|].
    apply (IH (List.length rest)); [|reflexivity].
    subst len. apply shape_length in Hs. rewrite length_app. lia.
  - destruct s as [|c s']; [apply Hnil|].
    apply Hlit; [assumption|].
    apply (IH (List.length s')); [subst len; simpl; lia|reflexivity].
Qed.

(** Every match of the scan is a match of the expression at its offset. *)
Lemma scan_In_tok pat m s pos :
  In (Tok m) (scan pat 0 pos s) ->
  exists i rest, m_re m = pat /\ m_start m = (pos + i)%nat /\
    skipn i s = m_text m ++ rest /\ (i <= List.length s)%nat /\
    shape pat (m_alt m) (m_text m) rest.
Proof.
  revert pos s. apply (scan_ind pat (fun pos s =>
    In (Tok m) (scan pat 0 pos s) ->
    exists i rest, m_re m = pat /\ m_start m = (pos + i)%nat /\
      skipn i s = m_text m ++ rest /\ (i <= List.length s)%nat /\
      shape pat (m_alt m) (m_text m) rest)).
  - intros pos [].
  - intros pos c s Hn IH. rewrite (scan_lit _ _ _ _ Hn).
    intros [H|H]; [discriminate|].
    destruct (IH H) as (i & rest & H1 & H2 & H3 & H4 & H5).
    exists (S i), rest. cbn [skipn List.length]. repeat split; auto; lia.
  - intros pos a t rest Hs IH. rewrite (scan_tok _ _ _ _ _ Hs).
    intros [H|H].
    + inv H. exists 0%nat, rest. cbn. rewrite Nat.add_0_r.
      repeat split; auto; lia.
    + destruct (IH H) as (i & rest' & H1 & H2 & H3 & H4 & H5).
      exists (List.length t + i)%nat, rest'.
      rewrite skipn_app, skipn_all2 by lia.
      replace (List.length t + i - List.length t)%nat with i by lia.
      rewrite length_app. repeat split; auto; lia.
Qed.


(** ** The replacement of one match *)

Lemma join_app repl gs1 gs2 :
  join repl (gs1 ++ gs2) =
  (o1 <- join repl gs1 ;; o2 <- join repl gs2 ;; Ok (o1 ++ o2)).
Proof.
  induction gs1 as [|g gs1 IH]; cbn [join app bind].
  - destruct (join repl gs2); reflexivity.
  - destruct (replace repl g) as [o|e]; cbn [bind]; [|reflexivity].
    rewrite IH. destruct (join repl gs1) as [o1|e]; cbn [bind]; [|reflexivity].
    destruct (join repl gs2) as [o2|e]; cbn [bind]; [|reflexivity].
    now rewrite app_assoc.
Qed.

Section Norm.
Variables (ib n r ie : bool).
Variables (st : nat) (t rest : list Z).

Lemma norm_slash pat :
  shape pat ASlash t rest ->
  norm ib n r ie (MatchObj pat st ASlash t)
  = Ok (if n && (1 <? List.length t)%nat then [92; 92; 92; 92] else t).
Proof. intros H; inv H; reflexivity. Qed.

Lemma norm_std_noraw pat :
  shape pat AStd t rest ->
  norm ib n false ie (MatchObj pat st AStd t) = Ok t.
Proof. intros H; inv H; reflexivity. Qed.

Lemma norm_other :
  shape (re_of ib) AOther t rest ->
  norm ib n r ie (MatchObj (re_of ib) st AOther t)
  = Ok (if ie then 92 :: t else t).
Proof.
  intros H; inv H. destruct ib, r; reflexivity.
Qed.

Lemma norm_noraw pat a :
  shape pat a t rest -> a <> ASlash -> a <> AStd ->
  norm ib n false ie (MatchObj pat st a t) = Ok (if ie then 92 :: t else t).
Proof.
  intros H H1 H2; inv H; try congruence; try destruct pat; destruct ib;
    cbv [norm group truthy text_of m_alt m_re m_text negb orb andb app];
    reflexivity.
Qed.

Lemma norm_prefix :
  shape (re_of ib) APrefix t rest ->
  norm ib n true ie (MatchObj (re_of ib) st APrefix t)
  = Raise (SyntaxError t st).
Proof. intros H; inv H. destruct ib; reflexivity. Qed.

Lemma norm_oct pat :
  shape pat AOct t rest ->
  norm ib n true ie (MatchObj pat st AOct t)
  = (v <- int ib (skipn 1 t) 8 ;; if ib then bytes1 (Z.land v 255) else chr v).
Proof. intros H; inv H. reflexivity. Qed.

Lemma norm_hex pat :
  shape pat AHex t rest ->
  norm ib n true ie (MatchObj pat st AHex t)
  = (v <- int ib (skipn 2 t) 16 ;; if ib then bytes1 v else chr v).
Proof. intros H; inv H. reflexivity. Qed.

End Norm.


(** ** The matches of a pattern *)

Lemma segments_tok p m :
  In (Tok m) (segments p) ->
  exists rest,
    m = MatchObj (re_of (isinstance_bytes p)) (m_start m) (m_alt m) (m_text m) /\
    skipn (m_start m) (units p) = m_text m ++ rest /\
    (m_start m <= List.length (units p))%nat /\
    shape (re_of (isinstance_bytes p)) (m_alt m) (m_text m) rest.
Proof.
  unfold segments, finditer. intros H.
  apply scan_In_tok in H as (i & rest & H1 & H2 & H3 & H4 & H5).
  cbn in H2. subst i. exists rest. repeat split; auto.
  destruct m; cbn in *. now subst.
Qed.

Lemma norm_pattern_join p n r ie :
  negb n && negb r && negb ie = false ->
  norm_pattern p n r ie =
  (out <- join (norm (isinstance_bytes p) n r ie) (segments p) ;;
   Ok (wrap (isinstance_bytes p) out)).
Proof. unfold norm_pattern. now intros ->. Qed.

(** ** [int] on the digits the expressions let through *)

Lemma digit_value_octal ib c :
  is_octal c = true -> digit_value ib c = Some (c - 48) /\ 0 <= c - 48 < 8.
Proof.
  intros H. apply is_octal_spec in H. unfold digit_value.
  assert (E : in_range c "0" "9" = true) by (apply in_range_spec; ords; lia).
  rewrite E. ords. split; [reflexivity|lia].
Qed.

Lemma digit_value_hex ib c :
  is_hex ib c = true -> exists d, digit_value ib c = Some d /\ 0 <= d < 16.
Proof.
  unfold is_hex, is_digit, digit_value. intros H.
  destruct (in_range c "0" "9") eqn:E0.
  { apply in_range_spec in E0. ords. exists (c - 48). split; [reflexivity|lia]. }
  destruct (in_range c "a" "z") eqn:E1.
  { cbn [orb] in H. apply in_range_spec in E1. ords.
    exists (c - 97 + 10). split; [reflexivity|].
    destruct (in_range c "a" "f") eqn:E2.
    - apply in_range_spec in E2. ords. lia.
    - destruct (in_range c "A" "F") eqn:E3.
      + apply in_range_spec in E3. ords. lia.
      + rewrite orb_false_r in H. bools. lia. }
  destruct (in_range c "A" "Z") eqn:E2.
  { cbn [orb] in H. apply in_range_spec in E2. ords.
    exists (c - 65 + 10). split; [reflexivity|].
    destruct (in_range c "A" "F") eqn:E3.
    - apply in_range_spec in E3. ords. lia.
    - destruct (in_range c "a" "f") eqn:E4.
      + apply in_range_spec in E4. ords. lia.
      + cbn [orb] in H. rewrite !orb_false_r in H. bools. lia. }
  cbn [orb] in H.
  destruct (negb ib && (128 <=? c)) eqn:E3.
  - cbn [andb] in H. destruct (decimal c) as [d|] eqn:Ed.
    + exists d. split; [reflexivity|]. apply decimal_range in Ed. lia.
    + cbn [orb] in H.
      destruct (in_range c "a" "f") eqn:E4.
      * apply in_range_spec in E4. rewrite <- not_true_iff_false, in_range_spec in E1.
        ords. lia.
      * cbn [orb] in H. apply in_range_spec in H.
        rewrite <- not_true_iff_false, in_range_spec in E2. ords. lia.
  - cbn [orb] in H.
    destruct (in_range c "a" "f") eqn:E4.
    + apply in_range_spec in E4. rewrite <- not_true_iff_false, in_range_spec in E1.
      ords. lia.
    + cbn [orb] in H. apply in_range_spec in H.
      rewrite <- not_true_iff_false, in_range_spec in E2. ords. lia.
Qed.

Lemma int_digits_bound ib base ds : 0 < base ->
  Forall (fun c => exists d, digit_value ib c = Some d /\ 0 <= d < base) ds ->
  forall acc, 0 <= acc ->
  exists v, int_digits ib base acc ds = Some v /\
    acc * base ^ Z.of_nat (List.length ds) <= v
    < (acc + 1) * base ^ Z.of_nat (List.length ds).
Proof.
  intros Hb H; induction H as [|c ds (d & Hd & Hr) _ IH]; intros acc Hacc.
  - exists acc. cbn. split; [reflexivity|lia].
  - cbn [int_digits]. rewrite Hd.
    assert (E : (d <? base) = true) by (apply Z.ltb_lt; lia). rewrite E.
    destruct (IH (acc * base + d)) as (v & Hv & Hlo & Hhi); [nia|].
    exists v. split; [assumption|].
    cbn [List.length]. rewrite Nat2Z.inj_succ, Z.pow_succ_r by lia.
    set (q := base ^ Z.of_nat (List.length ds)) in *.
    assert (0 < q) by (apply Z.pow_pos_nonneg; lia). nia.
Qed.

Lemma int_bound ib base ds : 0 < base -> ds <> [] ->
  Forall (fun c => exists d, digit_value ib c = Some d /\ 0 <= d < base) ds ->
  exists v, int ib ds base = Ok v /\ 0 <= v < base ^ Z.of_nat (List.length ds).
Proof.
  intros Hb Hne H.
  destruct (int_digits_bound ib base ds Hb H 0) as (v & Hv & Hr); [lia|].
  exists v. unfold int. rewrite Hv. destruct ds; [congruence|]. split; [reflexivity|lia].
Qed.

Lemma hexes_Forall ib k ds :
  hexes ib k ds = true -> List.length ds = k ->
  Forall (fun c => is_hex ib c = true) ds.
Proof.
  revert ds; induction k as [|k IH]; intros [|c ds]; cbn; try discriminate;
    intros H Hl; constructor; bools.
  - assumption.
  - apply IH; [assumption|lia].
Qed.

Lemma octals_Forall k ds rest :
  octals k (ds ++ rest) = List.length ds ->
  Forall (fun c => is_octal c = true) ds /\ (List.length ds <= k)%nat.
Proof.
  revert ds; induction k as [|k IH]; intros [|c ds]; cbn; try discriminate;
    intros H; try (split; [constructor|lia]).
  destruct (is_octal c) eqn:E; [|discriminate].
  injection H as H. apply IH in H as [H1 H2]. split; [now constructor|lia].
Qed.

End ScanFacts.

(** * The claims about [norm_pattern] *)

Section NormPatternSpec.
Context {ucd : UnicodeData}.

(** With the three flags false every match is replaced by itself. *)
Lemma join_identity ib pat s : forall pos,
  join (norm ib false false false) (scan pat 0 pos s) = Ok s.
Proof.
  intros pos; revert pos s.
  apply (scan_ind pat (fun pos s =>
    join (norm ib false false false) (scan pat 0 pos s) = Ok s)).
  - reflexivity.
  - intros pos c s Hn IH. rewrite (scan_lit _ _ _ _ Hn).
    cbn [join replace bind]. now rewrite IH.
  - intros pos a t rest Hs IH. rewrite (scan_tok _ _ _ _ _ Hs).
    cbn [join replace].
    assert (E : norm ib false false false (MatchObj pat pos a t) = Ok t).
    { destruct (alt_eq_dec a ASlash) as [->|Ha].
      - now rewrite (norm_slash _ _ _ _ _ _ rest).
      - destruct (alt_eq_dec a AStd) as [->|Ha'].
        + now rewrite (norm_std_noraw _ _ _ _ _ rest).
        + now rewrite (norm_noraw _ _ _ _ _ rest). }
    rewrite E. cbn [bind]. now rewrite IH.
Qed.

(** The counted scan is the scan, with one attempt for each of its matches
    and each of the units between them. *)
Lemma scan_counted_spec pat s : forall skip pos k,
  scan_counted pat skip pos s k
  = (scan pat skip pos s, (k + List.length (scan pat skip pos s))%nat).
Proof.
  induction s as [|c s IH]; intros skip pos k.
  - cbn. now rewrite Nat.add_0_r.
  - cbn [scan_counted scan]. destruct skip as [|j]; [|apply IH].
    destruct (match_at pat (c :: s)) as [[a n]|]; rewrite IH;
      cbn [List.length]; f_equal; lia.
Qed.

Lemma norm_pattern_counted_spec p n r ie k :
  negb n && negb r && negb ie = false ->
  norm_pattern_counted p n r ie k
  = ((norm_pattern p n r ie, ReturnSub),
     (k + List.length (segments p))%nat).
Proof.
  intros E. unfold norm_pattern_counted, norm_pattern, re_sub, segments, finditer.
  rewrite E, scan_counted_spec. reflexivity.
Qed.

Lemma segments_nonempty p : units p <> [] -> (0 < List.length (segments p))%nat.
Proof.
  unfold segments, finditer. destruct (units p) as [|c s]; [congruence|].
  intros _. rewrite scan_unfold.
  destruct (match_at _ (c :: s)) as [[a n]|]; cbn [List.length]; lia.
Qed.

(** C7. With [normalize], [is_raw_chars] and [ignore_escape] all false,
    [norm_pattern] returns its argument, in either alphabet, and it does so
    by [return pattern], which hands back the argument itself, before the
    expression is tried at any position: the count of attempts is left as
    it was.  With one of the three flags set the result comes from
    [pat.sub] and the expression is tried once for every match and every
    unit between matches, at least once on a pattern that is not empty.
    (That substitution, run with the three flags false, would give back
    equal contents; only the count and the statement that returns tell the
    early return apart.) *)
Theorem fast_path_identity (p : pattern) (k : nat) :
  norm_pattern p false false false = Ok p /\
  norm_pattern_counted p false false false k = ((Ok p, ReturnPattern), k) /\
  (forall n r ie, negb n && negb r && negb ie = false ->
     norm_pattern_counted p n r ie k
     = ((norm_pattern p n r ie, ReturnSub),
        (k + List.length (segments p))%nat)) /\
  (units p <> [] -> (0 < List.length (segments p))%nat) /\
  re_sub (re_of (isinstance_bytes p))
    (norm (isinstance_bytes p) false false false) (units p) = Ok (units p).
Proof.
  split; [reflexivity|]. split; [reflexivity|].
  split; [intros n r ie E; now apply norm_pattern_counted_spec|].
  split; [apply segments_nonempty|].
  unfold re_sub, finditer. apply join_identity.
Qed.

Lemma norm_noraw_ok ib n ie pat st a t rest :
  shape pat a t rest ->
  exists o, norm ib n false ie (MatchObj pat st a t) = Ok o.
Proof.
  intros H. destruct a.
  1: rewrite (norm_slash _ _ _ _ _ _ rest) by assumption; eauto.
  1: rewrite (norm_std_noraw _ _ _ _ _ rest) by assumption; eauto.
  all: rewrite (norm_noraw _ _ _ _ _ rest) by (assumption || discriminate); eauto.
Qed.

Lemma join_noraw_ok ib n ie pat s : forall pos,
  exists o, join (norm ib n false ie) (scan pat 0 pos s) = Ok o.
Proof.
  intros pos; revert pos s.
  apply (scan_ind pat (fun pos s =>
    exists o, join (norm ib n false ie) (scan pat 0 pos s) = Ok o)).
  - intros pos. exists []. reflexivity.
  - intros pos c s Hn [o Ho]. rewrite (scan_lit _ _ _ _ Hn).
    cbn [join replace bind]. rewrite Ho. cbn [bind]. eauto.
  - intros pos a t rest Hs [o Ho]. rewrite (scan_tok _ _ _ _ _ Hs).
    cbn [join replace].
    destruct (norm_noraw_ok ib n ie pat pos a t rest Hs) as [o' ->].
    cbn [bind]. rewrite Ho. cbn [bind]. eauto.
Qed.

(** C10. With [is_raw_chars] false, [norm_pattern] raises nothing, for every
    pattern of either alphabet and every [normalize] and [ignore_escape]: the
    replacement of every match is computed by a branch that returns, a bare
    escape letter such as [\u] or [\x] included, which is passed through. *)
Theorem norm_pattern_total_without_raw (p : pattern) (n ie : bool) :
  (exists q, norm_pattern p n false ie = Ok q) /\
  (forall m, In (Tok m) (segments p) ->
     exists o, norm (isinstance_bytes p) n false ie m = Ok o) /\
  norm_pattern (Str (str "\u")) true false false = Ok (Str (str "\u")) /\
  norm_pattern (Bytes (str "a\xb")) true false false = Ok (Bytes (str "a\xb")).
Proof.
  split; [|split; [|split; reflexivity]].
  - unfold norm_pattern.
    destruct (negb n && negb false && negb ie); [eauto|].
    unfold re_sub, finditer.
    destruct (join_noraw_ok (isinstance_bytes p) n ie
                (re_of (isinstance_bytes p)) (units p) 0) as [o ->].
    cbn [bind]. eauto.
  - intros m Hm. apply segments_tok in Hm as (rest & -> & _ & _ & Hs).
    eapply norm_noraw_ok; eassumption.
Qed.

(** What [norm_pattern] returns is the replacements of the scan put
    together, on the fast path too. *)
Lemma norm_pattern_ok_join p n r ie q :
  norm_pattern p n r ie = Ok q ->
  join (norm (isinstance_bytes p) n r ie) (segments p) = Ok (units q) /\
  isinstance_bytes q = isinstance_bytes p.
Proof.
  unfold norm_pattern.
  destruct (negb n && negb r && negb ie) eqn:E.
  - intros H; inv H. apply andb_prop in E as [E E3]. apply andb_prop in E as [E1 E2].
    apply negb_true_iff in E1, E2, E3. subst.
    split; [apply join_identity|reflexivity].
  - unfold re_sub, segments.
    destruct (join _ _) as [o|]; cbn [bind]; [|discriminate].
    intros H; inv H. now destruct (isinstance_bytes p).
Qed.

Lemma join_split repl pre m post o :
  join repl (pre ++ Tok m :: post) = Ok o ->
  exists o1 om o2, join repl pre = Ok o1 /\ repl m = Ok om /\
    join repl post = Ok o2 /\ o = o1 ++ om ++ o2.
Proof.
  rewrite join_app. cbn [join replace].
  destruct (join repl pre) as [o1|]; cbn [bind]; [|discriminate].
  destruct (repl m) as [om|]; cbn [bind]; [|discriminate].
  destruct (join repl post) as [o2|]; cbn [bind]; [|discriminate].
  intros H; inv H. eauto 8.
Qed.

(** The result at one match: what comes before it replaced, its own
    replacement, what comes after it replaced. *)
Lemma norm_pattern_at p n r ie pre m post q :
  segments p = pre ++ Tok m :: post ->
  norm_pattern p n r ie = Ok q ->
  exists o1 om o2,
    join (norm (isinstance_bytes p) n r ie) pre = Ok o1 /\
    norm (isinstance_bytes p) n r ie m = Ok om /\
    join (norm (isinstance_bytes p) n r ie) post = Ok o2 /\
    q = wrap (isinstance_bytes p) (o1 ++ om ++ o2).
Proof.
  intros Hseg Hq. apply norm_pattern_ok_join in Hq as [Hj Hb].
  rewrite Hseg in Hj. apply join_split in Hj as (o1 & om & o2 & H1 & H2 & H3 & E).
  exists o1, om, o2. repeat split; try assumption.
  destruct q, (isinstance_bytes p); cbn in *; congruence.
Qed.

Lemma norm_pattern_build p n r ie pre m post o1 :
  segments p = pre ++ Tok m :: post ->
  negb n && negb r && negb ie = false ->
  join (norm (isinstance_bytes p) n r ie) pre = Ok o1 ->
  (forall om o2,
     norm (isinstance_bytes p) n r ie m = Ok om ->
     join (norm (isinstance_bytes p) n r ie) post = Ok o2 ->
     norm_pattern p n r ie = Ok (wrap (isinstance_bytes p) (o1 ++ om ++ o2))) /\
  (forall e, norm (isinstance_bytes p) n r ie m = Raise e ->
     norm_pattern p n r ie = Raise e).
Proof.
  intros Hseg E H1. rewrite norm_pattern_join by assumption.
  rewrite Hseg, join_app, H1. cbn [bind join replace]. split.
  - intros om o2 -> ->. reflexivity.
  - intros e ->. reflexivity.
Qed.

(** C6. A match of the separator alternative is [/] or [\/].  What
    [norm_pattern] returns is what comes before the match replaced, then
    the replacement of the match, then what comes after it replaced: with
    [normalize] the replacement of [\/] is four backslashes and that of [/]
    is [/]; without [normalize] the replacement of either is the match
    itself.  In [a\/b/c] with [normalize] the [\/] becomes four backslashes
    and the [/] stays. *)
Theorem separator_normalization (p q : pattern) (n r ie : bool)
  (pre post : list segment) (m : re_match) :
  segments p = pre ++ Tok m :: post -> m_alt m = ASlash ->
  norm_pattern p n r ie = Ok q ->
  (m_text m = str "/" \/ m_text m = str "\/") /\
  exists o1 o2,
    join (norm (isinstance_bytes p) n r ie) pre = Ok o1 /\
    join (norm (isinstance_bytes p) n r ie) post = Ok o2 /\
    (n = true -> m_text m = str "\/" ->
       q = wrap (isinstance_bytes p) (o1 ++ str "\\\\" ++ o2)) /\
    (n = true -> m_text m = str "/" ->
       q = wrap (isinstance_bytes p) (o1 ++ str "/" ++ o2)) /\
    (n = false -> q = wrap (isinstance_bytes p) (o1 ++ m_text m ++ o2)).
Proof.
  intros Hseg Ha Hq.
  assert (Hm : In (Tok m) (segments p)) by (rewrite Hseg; apply in_elt).
  apply segments_tok in Hm as (rest & Em & _ & _ & Hs).
  destruct (norm_pattern_at _ _ _ _ _ _ _ _ Hseg Hq)
    as (o1 & om & o2 & H1 & H2 & H3 & ->).
  rewrite Ha in Hs, Em. rewrite Em in H2.
  rewrite (norm_slash _ _ _ _ _ _ rest) in H2 by assumption.
  injection H2 as <-.
  assert (Ht : m_text m = str "/" \/ m_text m = str "\/")
    by (inv Hs; ords; auto).
  split; [exact Ht|]. exists o1, o2.
  split; [assumption|]. split; [assumption|].
  destruct Ht as [Ht|Ht]; rewrite Ht; ords; cbn [List.length Nat.ltb Nat.leb];
    rewrite ?andb_false_r, ?andb_true_r.
  - split; [discriminate|]. split; [reflexivity|]. intros ->; reflexivity.
  - split; [intros ->; reflexivity|]. split; [discriminate|].
    intros ->; reflexivity.
Qed.




(** C5. In a bytes pattern no match is a named escape, and the only
    hexadecimal escape is [\xHH]: a backslash followed by [u], [U] or [N] is
    a match of the any-other-character alternative, two units long, and is
    passed through unchanged whatever [normalize] and [is_raw_chars] are;
    what [norm_pattern] returns for a bytes pattern is a bytes pattern.
    The bytes [\u0041] stay the six bytes they are. *)
Theorem bytes_unicode_opaque (b : list Z) (n r : bool) (m : re_match) :
  In (Tok m) (segments (Bytes b)) ->
  m_alt m <> AName /\
  (m_alt m = AHex -> exists d1 d2, m_text m = [ord "\"; ord "x"; d1; d2]) /\
  (forall c, In c (str "uUN") -> firstn 2 (m_text m) = [ord "\"; c] ->
     m_alt m = AOther /\ m_text m = [ord "\"; c] /\
     norm true n r false m = Ok (m_text m)) /\
  (forall ie q, norm_pattern (Bytes b) n r ie = Ok q ->
     isinstance_bytes q = true) /\
  norm_pattern (Bytes (str "\u0041")) false true false
  = Ok (Bytes (str "\u0041")).
Proof.
  intros Hm. apply segments_tok in Hm as (rest & Em & _ & _ & Hs).
  cbn [isinstance_bytes re_of] in *.
  destruct m as [mre st a t]; cbn [m_re m_start m_alt m_text] in *.
  injection Em as ->.
  split; [|split; [|split; [|split; [|reflexivity]]]].
  4: { intros ie q. unfold norm_pattern. cbn [isinstance_bytes units wrap].
       destruct (negb n && negb r && negb ie); [intros H; now inv H|].
       destruct (re_sub _ _ b); cbn [bind]; intros H; now inv H. }
  - intros ->. inv Hs. discriminate.
  - intros ->. inv Hs.
    match goal with H : hex_len _ _ = Some _ |- _ =>
      cbn in H; destruct (c =? 120) eqn:E; [|discriminate]; inv H end.
    bools. subst c. destruct ds as [|d1 [|d2 [|? ?]]]; try discriminate.
    ords. eauto.
  - intros c Hc Hf. ords. cbn [In] in Hc.
    assert (Hc' : c = 117 \/ c = 85 \/ c = 78) by lia. clear Hc.
    assert (Hstd : elem c "abfnrtv\" = false).
    { destruct (elem c "abfnrtv\") eqn:E; [|reflexivity].
      apply elem_std in E. lia. }
    assert (Hoct : is_octal c = false).
    { destruct (is_octal c) eqn:E; [|reflexivity].
      apply is_octal_spec in E. lia. }
    assert (Hx : elem c "x" = false).
    { destruct (elem c "x") eqn:E; [|reflexivity]. apply elem_x in E. lia. }
    assert (Hsh : shape RE_BNORM AOther [92; c] rest /\ a = AOther
                  /\ t = [92; c]).
    { inv Hs; cbn [firstn] in Hf;
        try (injection Hf; intros; subst; try lia; try congruence); try discriminate.
      - exfalso. match goal with H : hex_len _ _ = Some _ |- _ =>
          cbn in H; destruct (c =? 120) eqn:E; [|discriminate] end.
        bools. lia.
      - split; [|auto]. constructor; auto; lia.
      - exfalso. match goal with H : is_prefix _ _ = true |- _ =>
          cbn [is_prefix] in H; congruence end. }
    destruct Hsh as (Hsh & Ha & Ht). split; [assumption|]. split; [assumption|].
    rewrite Ha, Ht.
    now rewrite (norm_other true n r false _ _ rest Hsh).
Qed.


(** C2, as the code has it.  With [is_raw_chars], when the scan comes to an
    escape letter ([N], [U], [u], [x] in text; [x] in bytes) that what follows
    does not complete, and the matches before it were replaced without an
    exception, [norm_pattern] raises the [SyntaxError] whose value is the
    backslash and the letter, two units, and whose position is the offset of
    that backslash in the pattern given; nothing is returned.  For [\u12] the
    value is [\u] and the position 0. *)
Theorem malformed_escape_raises (p : pattern) (n ie : bool)
  (pre post : list segment) (m : re_match) (o : list Z) :
  segments p = pre ++ Tok m :: post -> m_alt m = APrefix ->
  join (norm (isinstance_bytes p) n true ie) pre = Ok o ->
  norm_pattern p n true ie = Raise (SyntaxError (m_text m) (m_start m)) /\
  firstn 2 (skipn (m_start m) (units p)) = m_text m /\
  (exists c, m_text m = [ord "\"; c] /\
     is_prefix (re_of (isinstance_bytes p)) c = true /\
     completes (re_of (isinstance_bytes p)) c
       (skipn (m_start m + 2) (units p)) = false) /\
  norm_pattern (Str (str "\u12")) false true false
  = Raise (SyntaxError (str "\u") 0).
Proof.
  intros Hseg Ha Hpre.
  assert (Hm : In (Tok m) (segments p)) by (rewrite Hseg; apply in_elt).
  apply segments_tok in Hm as (rest & Em & Hsk & _ & Hs).
  set (ib := isinstance_bytes p) in *.
  destruct m as [mre st a t]; cbn [m_re m_start m_alt m_text] in *.
  injection Em as ->. subst a.
  split; [|split; [|split; [|reflexivity]]].
  - rewrite norm_pattern_join by (now rewrite andb_false_r).
    fold ib. rewrite Hseg, join_app, Hpre. cbn [bind join replace].
    now rewrite (norm_prefix _ _ _ _ _ rest Hs).
  - rewrite Hsk. inv Hs. reflexivity.
  - inv Hs. exists c. ords. repeat split; try assumption.
    rewrite Nat.add_comm, <- skipn_skipn, Hsk. assumption.
Qed.

End NormPatternSpec.

(** * Normalising twice *)

Section Idempotence.
Context {ucd : UnicodeData}.
Variables (ib n r : bool).

Local Abbreviation pat := (re_of ib).
Local Abbreviation repl := (norm ib n r false).
Local Abbreviation fixed := (fixed_point ib n r).

Lemma fixed_nil : fixed [].
Proof. intros pos. reflexivity. Qed.

Lemma fixed_backslash : fixed [92].
Proof. intros pos. destruct ib; reflexivity. Qed.

Lemma fixed_tok a t o :
  shape pat a t o -> (forall st, repl (MatchObj pat st a t) = Ok t) ->
  fixed o -> fixed (t ++ o).
Proof.
  intros Hs Hn Ho pos. rewrite (scan_tok _ _ _ _ _ Hs).
  cbn [join replace]. rewrite Hn. cbn [bind]. rewrite Ho. reflexivity.
Qed.

(** A unit other than the backslash is left as it is. *)
Lemma fixed_unit c o : c <> 92 -> fixed o -> fixed (c :: o).
Proof.
  intros Hc Ho. destruct (Z.eq_dec c 47) as [->|H47].
  - apply (fixed_tok ASlash [47] o); [constructor| |assumption].
    intros st. rewrite (norm_slash _ _ _ _ _ _ o) by constructor.
    now rewrite andb_false_r.
  - intros pos. rewrite scan_lit by (apply match_at_none; tauto).
    cbn [join replace bind]. rewrite Ho. reflexivity.
Qed.

Lemma fixed_units l o : ~ In 92 l -> fixed o -> fixed (l ++ o).
Proof.
  induction l as [|c l IH]; intros Hl Ho; [assumption|].
  cbn [app]. apply fixed_unit.
  - intros ->. apply Hl. now left.
  - apply IH; [|assumption]. intros H. apply Hl. now right.
Qed.

Lemma norm_std_backslash st : repl (MatchObj pat st AStd [92; 92]) = Ok [92; 92].
Proof. destruct ib, r; reflexivity. Qed.

Lemma fixed_backslashes o : fixed o -> fixed (92 :: 92 :: o).
Proof.
  intros Ho. apply (fixed_tok AStd [92; 92] o); [|apply norm_std_backslash|assumption].
  constructor. reflexivity.
Qed.

(** *** What follows a match, before and after the first pass *)

Lemma is_hex_backslash b : is_hex b 92 = false.
Proof. destruct b; reflexivity. Qed.

Lemma slashed_app t s q : slashed s q -> slashed (t ++ s) (t ++ q).
Proof. intros H. induction t; cbn [app]; [assumption|now constructor]. Qed.

Lemma slashed_octals s q : slashed s q -> forall k, octals k s = octals k q.
Proof.
  induction 1 as [|c s q _ IH|s q _ _]; intros [|k]; cbn [octals]; try reflexivity.
  now rewrite IH.
Qed.

Lemma slashed_octals_app ds s q :
  slashed s q -> forall k, octals k (ds ++ s) = octals k (ds ++ q).
Proof. intros H. apply slashed_octals. now apply slashed_app. Qed.

Lemma slashed_hexes b s q : slashed s q -> forall k, hexes b k s = hexes b k q.
Proof.
  induction 1 as [|c s q _ IH|s q _ _]; intros [|k]; cbn [hexes]; try reflexivity.
  - now rewrite IH.
  - now rewrite is_hex_backslash.
Qed.

Lemma slashed_brace s q :
  slashed s q ->
  match to_brace s with Some _ => true | None => false end
  = match to_brace q with Some _ => true | None => false end.
Proof.
  induction 1 as [|c s q _ IH|s q _ IH]; cbn [to_brace]; try reflexivity.
  - destruct (c =? ord "}"); [reflexivity|].
    destruct (to_brace s), (to_brace q); (reflexivity || discriminate).
  - ords. cbn [Z.eqb Pos.eqb].
    destruct (to_brace s), (to_brace q); (reflexivity || discriminate).
Qed.

Lemma slashed_completes re c s q :
  slashed s q -> completes re c s = completes re c q.
Proof.
  intros H. unfold completes. destruct (hex_len re c) as [k|].
  - now apply slashed_hexes.
  - inv H; try reflexivity.
    match goal with H : slashed _ _ |- _ => now rewrite (slashed_brace _ _ H) end.
Qed.

(** The shape of a match stands when the input after it is exchanged for
    that input normalised. *)
Lemma shape_slashed re a t s q :
  shape re a t s -> slashed s q -> shape re a t q.
Proof.
  intros H Hq. destruct H as
    [rest|rest|c rest Hc|c k ds rest Hk Hl Hd|c ds rest Hc Ho
    |name rest Hp Hb|c rest H1 H2 H3 H4|c rest Hc Hn].
  - constructor.
  - constructor.
  - now constructor.
  - now apply Sh_hex with (k := k).
  - constructor; [assumption|]. now rewrite <- (slashed_octals_app _ _ _ Hq).
  - now constructor.
  - now constructor.
  - constructor; [assumption|]. now rewrite <- (slashed_completes _ _ _ _ Hq).
Qed.

(** *** The second pass over the output of the first *)

Lemma join_tok_inv a t rest pos o :
  shape pat a t rest ->
  join repl (scan pat 0 pos (t ++ rest)) = Ok o ->
  exists ot o', repl (MatchObj pat pos a t) = Ok ot /\
    join repl (scan pat 0 (pos + List.length t) rest) = Ok o' /\ o = ot ++ o'.
Proof.
  intros Hs. rewrite (scan_tok _ _ _ _ _ Hs). cbn [join replace].
  destruct (repl (MatchObj pat pos a t)) as [ot|e]; cbn [bind]; [|discriminate].
  destruct (join repl (scan pat 0 (pos + List.length t) rest)) as [o'|e];
    cbn [bind]; [|discriminate].
  intros H; inv H. eauto.
Qed.

Lemma join_lit_inv c s pos o :
  match_at pat (c :: s) = None ->
  join repl (scan pat 0 pos (c :: s)) = Ok o ->
  exists o', join repl (scan pat 0 (S pos) s) = Ok o' /\ o = c :: o'.
Proof.
  intros Hn. rewrite (scan_lit _ _ _ _ Hn). cbn [join replace bind].
  destruct (join repl (scan pat 0 (S pos) s)) as [o'|e]; cbn [bind]; [|discriminate].
  intros H; inv H. eauto.
Qed.

(** A unit no match starts at, and the output after it. *)
Lemma fixed_lit c s o' pos :
  match_at pat (c :: s) = None ->
  join repl (scan pat 0 pos s) = Ok o' -> fixed o' -> fixed (c :: o').
Proof.
  intros Hn Ho Hf. apply match_at_none in Hn as [H47 H92].
  destruct (Z.eq_dec c 92) as [->|Hc]; [|now apply fixed_unit].
  rewrite (H92 eq_refl) in Ho. cbn in Ho. inv Ho. apply fixed_backslash.
Qed.

(** A separator, replaced, and the output after it. *)
Lemma fixed_slash t rest st ot o' :
  shape pat ASlash t rest -> repl (MatchObj pat st ASlash t) = Ok ot ->
  fixed o' -> fixed (ot ++ o').
Proof.
  intros Hs Hn Hf.
  rewrite (norm_slash _ _ _ _ _ _ rest) in Hn by assumption.
  inv Hs; cbn [List.length Nat.ltb Nat.leb] in Hn; rewrite ?andb_false_r in Hn.
  - inv Hn. apply fixed_unit; [discriminate|assumption].
  - rewrite andb_true_r in Hn.
    destruct (bool_dec n true) as [En|En]; [|apply not_true_is_false in En];
      rewrite En in Hn; injection Hn as Hn; subst ot.
    + cbn [app]. now do 2 apply fixed_backslashes.
    + apply (fixed_tok ASlash [92; 47] o'); [constructor| |assumption].
      intros st'. rewrite (norm_slash _ _ _ _ _ _ o') by constructor.
      now rewrite En.
Qed.

Lemma slashed_slash t rest st ot o' :
  shape pat ASlash t rest -> repl (MatchObj pat st ASlash t) = Ok ot ->
  slashed rest o' -> slashed (t ++ rest) (ot ++ o').
Proof.
  intros Hs Hn Hf.
  rewrite (norm_slash _ _ _ _ _ _ rest) in Hn by assumption.
  inv Hs; cbn [List.length Nat.ltb Nat.leb] in Hn; rewrite ?andb_false_r in Hn.
  - inv Hn. now apply slashed_app.
  - rewrite andb_true_r in Hn.
    destruct (bool_dec n true) as [En|En]; [|apply not_true_is_false in En];
      rewrite En in Hn; injection Hn as Hn; subst ot.
    + cbn [app]. now constructor.
    + now apply slashed_app.
Qed.

End Idempotence.

Section Passes.
Context {ucd : UnicodeData}.
Variables (ib n : bool).

Local Abbreviation pat := (re_of ib).

(** Without [is_raw_chars]: the output is the input with its [\\/] replaced
    when [normalize] is set, and the second pass changes nothing in it. *)
Lemma noraw_out pos s o :
  join (norm ib n false false) (scan pat 0 pos s) = Ok o ->
  slashed s o /\ fixed_point ib n false o.
Proof.
  revert pos s o.
  apply (scan_ind pat (fun pos s =>
    forall o, join (norm ib n false false) (scan pat 0 pos s) = Ok o ->
      slashed s o /\ fixed_point ib n false o)).
  - intros pos o H. inv H. split; [constructor|apply fixed_nil].
  - intros pos c s Hn IH o Ho.
    destruct (join_lit_inv _ _ _ _ _ _ _ Hn Ho) as (o' & Ho' & ->).
    destruct (IH _ Ho') as [H1 H2]. split; [now constructor|].
    eapply fixed_lit; eassumption.
  - intros pos a t rest Hs IH o Ho.
    destruct (join_tok_inv _ _ _ _ _ _ _ _ Hs Ho) as (ot & o' & Hot & Ho' & ->).
    destruct (IH _ Ho') as [H1 H2].
    destruct (alt_eq_dec a ASlash) as [->|Ha].
    { split; [eapply slashed_slash|eapply fixed_slash]; eassumption. }
    assert (Hst : forall st, norm ib n false false (MatchObj pat st a t) = Ok t).
    { intros st.
      destruct (alt_eq_dec a AStd) as [->|Ha'].
      - now rewrite (norm_std_noraw _ _ _ _ _ rest).
      - now rewrite (norm_noraw _ _ _ _ _ rest). }
    rewrite Hst in Hot. inv Hot.
    split; [now apply slashed_app|].
    apply (fixed_tok ib n false a); [|assumption|assumption].
    eapply shape_slashed; eassumption.
Qed.

Lemma norm_std_raw st c :
  elem c "abfnrtv\" = true ->
  exists ot, norm ib n true false (MatchObj pat st AStd [92; c]) = Ok ot /\
    (ot = [92; 92] \/ exists k, ot = [k] /\ k <> 92).
Proof.
  intros Hc. apply elem_std in Hc.
  destruct ib; destruct Hc as [-> | [-> | [-> | [-> | [-> | [-> | [-> | ->]]]]]]];
    eexists; (split; [reflexivity|]);
    solve [left; reflexivity | right; eexists; split; [reflexivity|discriminate]].
Qed.

(** With [is_raw_chars]: when no backslash comes out of a decoded escape,
    the second pass changes nothing in the output of the first. *)
Lemma raw_out pos s o :
  join (norm ib n true false) (scan pat 0 pos s) = Ok o ->
  forallb (clean ib n true) (scan pat 0 pos s) = true ->
  fixed_point ib n true o.
Proof.
  revert pos s o.
  apply (scan_ind pat (fun pos s =>
    forall o, join (norm ib n true false) (scan pat 0 pos s) = Ok o ->
      forallb (clean ib n true) (scan pat 0 pos s) = true ->
      fixed_point ib n true o)).
  - intros pos o H _. inv H. apply fixed_nil.
  - intros pos c s Hn IH o Ho Hc.
    destruct (join_lit_inv _ _ _ _ _ _ _ Hn Ho) as (o' & Ho' & ->).
    rewrite (scan_lit _ _ _ _ Hn) in Hc. cbn [forallb clean andb] in Hc.
    eapply fixed_lit; eauto.
  - intros pos a t rest Hs IH o Ho Hc.
    destruct (join_tok_inv _ _ _ _ _ _ _ _ Hs Ho) as (ot & o' & Hot & Ho' & ->).
    rewrite (scan_tok _ _ _ _ _ Hs) in Hc. cbn [forallb] in Hc.
    apply andb_prop in Hc as [Hc1 Hc2]. specialize (IH _ Ho' Hc2).
    cbn [clean m_alt] in Hc1. rewrite Hot in Hc1.
    assert (Hdec : decodes a = true -> fixed_point ib n true (ot ++ o')).
    { intros Hd. rewrite Hd in Hc1. cbn [andb] in Hc1.
      apply fixed_units; [|assumption].
      intros Hin. apply negb_true_iff in Hc1.
      rewrite <- not_true_iff_false in Hc1. apply Hc1.
      apply existsb_exists. exists 92. split; [assumption|reflexivity]. }
    destruct a; try (apply Hdec; reflexivity).
    + eapply fixed_slash; eassumption.
    + inversion Hs as [| |c rest' Helem| | | | |]; subst.
      destruct (norm_std_raw pos c Helem) as (ot' & E & [->|(k & -> & Hk)]);
        rewrite E in Hot; inv Hot.
      * now apply fixed_backslashes.
      * now apply fixed_unit.
    + rewrite (norm_other _ _ _ _ _ _ rest) in Hot by exact Hs.
      inv Hot. apply (fixed_tok ib n true AOther); [| |assumption].
      * inversion Hs; subst. now constructor.
      * intros st. now rewrite (norm_other ib n true false st _ rest Hs).
    + rewrite (norm_prefix _ _ _ _ _ rest) in Hot by exact Hs. discriminate.
Qed.

End Passes.


Section IdempotenceClaim.
Context {ucd : UnicodeData}.

Lemma no_decoded_backslash_noraw p n : no_decoded_backslash p n false = true.
Proof.
  unfold no_decoded_backslash. apply forallb_forall.
  intros [c|m] _; reflexivity.
Qed.

(** C1, as the code has it.  When [norm_pattern p n r] returns [q] and no
    numeric, unicode or named escape of [p] was decoded to a backslash, which
    is so whenever [is_raw_chars] is false, [norm_pattern q n r] returns [q],
    unit for unit, in either alphabet. *)
Theorem norm_pattern_idempotent (p q : pattern) (n r : bool) :
  norm_pattern p n r false = Ok q ->
  r = false \/ no_decoded_backslash p n r = true ->
  norm_pattern q n r false = Ok q.
Proof.
  intros Hq Hclean.
  destruct (negb n && negb r && negb false) eqn:Efast.
  { unfold norm_pattern in *. rewrite Efast in *. now inv Hq. }
  rewrite norm_pattern_join in Hq by assumption.
  rewrite norm_pattern_join by assumption.
  set (ib := isinstance_bytes p) in *.
  destruct (join (norm ib n r false) (segments p)) as [o|e] eqn:Ho;
    cbn [bind] in Hq; [|discriminate].
  inv Hq.
  assert (Eib : isinstance_bytes (wrap ib o) = ib) by (destruct ib; reflexivity).
  assert (Eu : units (wrap ib o) = o) by (destruct ib; reflexivity).
  unfold segments, finditer in *. rewrite Eib, Eu. fold ib in Ho.
  assert (Hfix : fixed_point ib n r o).
  { destruct r eqn:Er.
    - apply (raw_out ib n 0%nat (units p)); [assumption|].
      destruct Hclean as [?|Hc]; [discriminate|]. exact Hc.
    - apply (noraw_out ib n 0%nat (units p)). assumption. }
  now rewrite (Hfix 0%nat).
Qed.

End IdempotenceClaim.

(** * The claims at concrete patterns *)

(** C1. A backslash that comes out of an octal escape opens an escape in the
    second pass: [\134n] becomes a backslash and [n], and that becomes a
    newline. *)
Lemma norm_pattern_not_idempotent :
  exists q, norm_pattern (Str (str "\134n")) false true false = Ok q /\
    norm_pattern q false true false <> Ok q.
Proof. exists (Str (str "\n")). split; [reflexivity|discriminate]. Qed.

Lemma norm_pattern_idempotent_witness :
  norm_pattern (Str (str "a\/\x41\057\n")) true true false
  = Ok (Str (str "a\\\\A/" ++ [10])) /\
  no_decoded_backslash (Str (str "a\/\x41\057\n")) true true = true /\
  norm_pattern (Str (str "a\\\\A/" ++ [10])) true true false
  = Ok (Str (str "a\\\\A/" ++ [10])).
Proof.
  split; [reflexivity|]. split; [reflexivity|].
  apply (norm_pattern_idempotent (Str (str "a\/\x41\057\n")) _ true true);
    [reflexivity|right; reflexivity].
Defined.

(** C2. The value the [SyntaxError] carries for [\u12] is [\u], not the four
    units [\u12]. *)
Lemma malformed_escape_value :
  norm_pattern (Str (str "\u12")) false true false
  <> Raise (SyntaxError (str "\u12") 0).
Proof. discriminate. Qed.

Lemma malformed_escape_raises_witness :
  segments (Str (str "a\n\x4g"))
  = [Lit 97; Tok (MatchObj RE_NORM 1 AStd (str "\n"))]
    ++ Tok (MatchObj RE_NORM 3 APrefix (str "\x")) :: [Lit 52; Lit 103] /\
  join (norm false true true false)
    [Lit 97; Tok (MatchObj RE_NORM 1 AStd (str "\n"))] = Ok [97; 10] /\
  norm_pattern (Str (str "a\n\x4g")) true true false
  = Raise (SyntaxError (str "\x") 3).
Proof.
  split; [reflexivity|]. split; [reflexivity|].
  destruct (malformed_escape_raises (Str (str "a\n\x4g")) true false
              [Lit 97; Tok (MatchObj RE_NORM 1 AStd (str "\n"))]
              [Lit 52; Lit 103] (MatchObj RE_NORM 3 APrefix (str "\x"))
              [97; 10])
    as (H & _); [reflexivity|reflexivity|reflexivity|].
  exact H.
Defined.






Lemma bytes_unicode_opaque_witness :
  In (Tok (MatchObj RE_BNORM 0 AOther (str "\u")))
     (segments (Bytes (str "\u0041"))) /\
  In 117 (str "uUN") /\
  norm true false true false (MatchObj RE_BNORM 0 AOther (str "\u"))
  = Ok (str "\u").
Proof.
  split; [in_list|]. split; [in_list|].
  destruct (bytes_unicode_opaque (str "\u0041") false true
              (MatchObj RE_BNORM 0 AOther (str "\u")))
    as (_ & _ & H & _); [in_list|].
  apply (H 117); [in_list|reflexivity].
Defined.

Lemma separator_normalization_witness :
  segments (Str (str "a\/b/c"))
  = [Lit 97] ++ Tok (MatchObj RE_NORM 1 ASlash (str "\/"))
      :: [Lit 98; Tok (MatchObj RE_NORM 4 ASlash (str "/")); Lit 99] /\
  norm_pattern (Str (str "a\/b/c")) true false false
  = Ok (Str (str "a\\\\b/c")) /\
  exists o1 o2,
    join (norm false true false false) [Lit 97] = Ok o1 /\
    join (norm false true false false)
      [Lit 98; Tok (MatchObj RE_NORM 4 ASlash (str "/")); Lit 99] = Ok o2 /\
    Str (str "a\\\\b/c") = wrap false (o1 ++ str "\\\\" ++ o2).
Proof.
  split; [reflexivity|]. split; [reflexivity|].
  destruct (separator_normalization (Str (str "a\/b/c")) (Str (str "a\\\\b/c"))
              true false false [Lit 97]
              [Lit 98; Tok (MatchObj RE_NORM 4 ASlash (str "/")); Lit 99]
              (MatchObj RE_NORM 1 ASlash (str "\/")))
    as (_ & o1 & o2 & H1 & H2 & H3 & _); [reflexivity|reflexivity|reflexivity|].
  exists o1, o2. split; [exact H1|]. split; [exact H2|].
  apply H3; reflexivity.
Defined.

Lemma fast_path_identity_witness :
  norm_pattern_counted (Str (str "a\/b")) false false false 0
  = ((Ok (Str (str "a\/b")), ReturnPattern), 0%nat) /\
  norm_pattern_counted (Str (str "a\/b")) true false false 0
  = ((Ok (Str (str "a\\\\b")), ReturnSub), 3%nat).
Proof.
  destruct (fast_path_identity (Str (str "a\/b")) 0) as (_ & H1 & H2 & _).
  split; [exact H1|]. apply (H2 true false false). reflexivity.
Defined.

Lemma norm_pattern_total_without_raw_witness :
  In (Tok (MatchObj RE_NORM 1 APrefix (str "\x")))
     (segments (Str (str "a\xg"))) /\
  exists o, norm false true false true (MatchObj RE_NORM 1 APrefix (str "\x"))
            = Ok o.
Proof.
  split; [in_list|].
  destruct (norm_pattern_total_without_raw (Str (str "a\xg")) true true)
    as (_ & H & _).
  apply H. in_list.
Defined.

(** * The claims about [fnmatch.py] *)

Section FlagFacts.
Context {wc : Wcparse}.

(** [FORCEWIN] and [FORCEUNIX] are single bits: bit [iw] and bit [iu]. *)
Variables iw iu : Z.
Hypothesis Hiw : 0 <= iw.
Hypothesis Hiu : 0 <= iu.
Hypothesis Hwin : FORCEWIN = 2 ^ iw.
Hypothesis Hunix : FORCEUNIX = 2 ^ iu.

Lemma land_pow2 f i : 0 <= i ->
  Z.land f (2 ^ i) = if Z.testbit f i then 2 ^ i else 0.
Proof.
  intros Hi. apply Z.bits_inj'. intros j Hj.
  rewrite Z.land_spec, Z.pow2_bits_eqb by assumption.
  destruct (Z.eqb_spec i j) as [->|Hij].
  - destruct (Z.testbit f j); [|now rewrite Z.bits_0].
    rewrite Z.pow2_bits_eqb, Z.eqb_refl by assumption. reflexivity.
  - rewrite andb_false_r. destruct (Z.testbit f i); [|now rewrite Z.bits_0].
    rewrite Z.pow2_bits_eqb by assumption. symmetry. now apply Z.eqb_neq.
Qed.

Lemma nonzero_land_pow2 f i : 0 <= i ->
  nonzero (Z.land f (2 ^ i)) = Z.testbit f i.
Proof.
  intros Hi. rewrite land_pow2 by assumption. unfold nonzero.
  destruct (Z.testbit f i); [|reflexivity].
  apply negb_true_iff, Z.eqb_neq.
  assert (0 < 2 ^ i) by (apply Z.pow_pos_nonneg; lia). lia.
Qed.

Lemma force_bits j : 0 <= j ->
  Z.testbit (Z.lor FORCEWIN FORCEUNIX) j = (iw =? j) || (iu =? j).
Proof.
  intros Hj. now rewrite Z.lor_spec, Hwin, Hunix, !Z.pow2_bits_eqb.
Qed.

(** Toggling two bits that are both set clears them. *)
Lemma lxor_both_set f :
  Z.testbit f iw = true -> Z.testbit f iu = true ->
  Z.lxor f (Z.lor FORCEWIN FORCEUNIX) = Z.ldiff f (Z.lor FORCEWIN FORCEUNIX).
Proof.
  intros H1 H2. apply Z.bits_inj'. intros j Hj.
  rewrite Z.lxor_spec, Z.ldiff_spec, force_bits by assumption.
  destruct (Z.eqb_spec iw j) as [<-|?]; [now rewrite H1|].
  destruct (Z.eqb_spec iu j) as [<-|?]; [now rewrite H2|].
  cbn. now rewrite xorb_false_r, andb_true_r.
Qed.

Lemma flag_transform_eq flags :
  _flag_transform flags =
  if Z.testbit flags iu && Z.testbit flags iw
  then Z.land (Z.ldiff flags (Z.lor FORCEWIN FORCEUNIX)) FLAG_MASK
  else Z.land flags FLAG_MASK.
Proof.
  unfold _flag_transform. rewrite Hwin at 1. rewrite Hunix at 1.
  rewrite !nonzero_land_pow2 by assumption.
  destruct (Z.testbit flags iu) eqn:E1, (Z.testbit flags iw) eqn:E2; cbn [andb];
    try reflexivity.
  now rewrite lxor_both_set.
Qed.

(** C8. [_flag_transform] clears [FORCEWIN] and [FORCEUNIX] when both are
    set, and only then, and masks the result with [FLAG_MASK]: every bit of
    the result is a bit of the mask, the two bits are never both set in a
    result, and the result for [FORCEWIN | FORCEUNIX] is the result for 0. *)
Theorem flag_transform_resolution (flags : Z) :
  (Z.testbit flags iw = true /\ Z.testbit flags iu = true ->
     _flag_transform flags
     = Z.land (Z.ldiff flags (Z.lor FORCEWIN FORCEUNIX)) FLAG_MASK) /\
  (~ (Z.testbit flags iw = true /\ Z.testbit flags iu = true) ->
     _flag_transform flags = Z.land flags FLAG_MASK) /\
  (forall i, Z.testbit (_flag_transform flags) i = true ->
     Z.testbit FLAG_MASK i = true) /\
  ~ (Z.testbit (_flag_transform flags) iw = true /\
     Z.testbit (_flag_transform flags) iu = true) /\
  ~ (Z.land (_flag_transform flags) FORCEWIN <> 0 /\
     Z.land (_flag_transform flags) FORCEUNIX <> 0) /\
  _flag_transform (Z.lor FORCEWIN FORCEUNIX) = _flag_transform 0.
Proof.
  assert (Hmask : forall i, Z.testbit (_flag_transform flags) i = true ->
            Z.testbit FLAG_MASK i = true).
  { intros i. unfold _flag_transform. rewrite Z.land_spec.
    intros H. now apply andb_prop in H. }
  assert (Hboth : ~ (Z.testbit (_flag_transform flags) iw = true /\
                     Z.testbit (_flag_transform flags) iu = true)).
  { rewrite flag_transform_eq.
    destruct (Z.testbit flags iu) eqn:E1, (Z.testbit flags iw) eqn:E2; cbn [andb];
      rewrite ?Z.land_spec, ?Z.ldiff_spec, ?force_bits, ?E1, ?E2, ?Z.eqb_refl
        by assumption; cbn; intuition discriminate. }
  repeat split.
  - intros [H1 H2]. now rewrite flag_transform_eq, H1, H2.
  - intros H. rewrite flag_transform_eq.
    destruct (Z.testbit flags iu), (Z.testbit flags iw); cbn [andb]; tauto.
  - exact Hmask.
  - exact Hboth.
  - intros [H1 H2]. apply Hboth. rewrite Hwin in H1. rewrite Hunix in H2.
    rewrite land_pow2 in H1, H2 by assumption.
    destruct (Z.testbit (_flag_transform flags) iw),
             (Z.testbit (_flag_transform flags) iu); tauto.
  - rewrite !flag_transform_eq. rewrite !force_bits by assumption.
    rewrite !Z.eqb_refl, Z.bits_0. cbn [orb andb]. rewrite orb_true_r. cbn [andb].
    rewrite Z.ldiff_diag. reflexivity.
Qed.

End FlagFacts.

Section FilterFacts.
Context {wc : Wcparse}.

Lemma subseq_refl {A} (l : list A) : subseq l l.
Proof. induction l; constructor; assumption. Qed.

Lemma subseq_filter {A} (f : A -> bool) (l : list A) :
  subseq (List.filter f l) l.
Proof.
  induction l as [|x l IH]; cbn [List.filter]; [constructor|].
  destruct (f x); constructor; assumption.
Qed.

(** The loop calls no compiler and appends the matching names in order. *)
Lemma filter_loop_spec obj fs : forall acc k,
  snd (filter_loop obj fs acc k) = k /\
  (forall out, fst (filter_loop obj fs acc k) = inr out ->
     out = acc ++ List.filter (match_true obj) fs) /\
  ((forall f, In f fs -> exists b, matcher_match obj f = inr b) ->
     exists out, fst (filter_loop obj fs acc k) = inr out).
Proof.
  induction fs as [|f fs IH]; intros acc k.
  - cbn. split; [reflexivity|]. split.
    + intros out H. inv H. now rewrite app_nil_r.
    + eauto.
  - cbn [filter_loop List.filter]. unfold mbind, call_match, match_true at 1.
    destruct (matcher_match obj f) as [e|b] eqn:E.
    + cbn. split; [reflexivity|]. split; [discriminate|].
      intros H. destruct (H f (or_introl eq_refl)) as [b Hb]. congruence.
    + destruct (IH (if b then acc ++ [f] else acc) k) as (H1 & H2 & H3).
      split; [assumption|]. split.
      * intros out Ho. rewrite (H2 out Ho).
        destruct b; [now rewrite <- app_assoc|reflexivity].
      * intros H. apply H3. intros g Hg. apply H. now right.
Qed.

Lemma fnmatch_run f ps flags lim ex k :
  fnmatch f ps flags lim ex k =
  (match compile ps (_flag_transform flags) lim ex with
   | inl e => inl e
   | inr obj => matcher_match obj f
   end, S k).
Proof.
  unfold fnmatch, mbind, call_compile, call_match, ret.
  destruct (compile ps (_flag_transform flags) lim ex) as [e|obj]; [reflexivity|].
  destruct (matcher_match obj f); reflexivity.
Qed.

(** C9. [filter] calls [_wcparse.compile] once, however many names it is
    given and whether or not it raises.  What it returns is the names for
    which [fnmatch], with the same patterns, flags, limit and exclude,
    returns [True], in the order given: a subsequence of the names.  It
    returns when the compiler does and the matcher does on every name. *)
Theorem filter_agrees_with_fnmatch (fs : list filename) (ps : patterns)
  (flags : Z) (lim : limit) (ex : exclude) (k : nat) :
  snd (filter fs ps flags lim ex k) = S k /\
  (forall f, snd (fnmatch f ps flags lim ex k) = S k) /\
  (forall out, fst (filter fs ps flags lim ex k) = inr out ->
     out = List.filter (fnmatch_true ps flags lim ex) fs /\
     subseq out fs /\
     (forall f, In f out <->
        In f fs /\ fst (fnmatch f ps flags lim ex 0%nat) = inr true)) /\
  ((exists obj, compile ps (_flag_transform flags) lim ex = inr obj /\
      forall f, In f fs -> exists b, matcher_match obj f = inr b) ->
   exists out, fst (filter fs ps flags lim ex k) = inr out).
Proof.
  split; [|split; [intros f; now rewrite fnmatch_run|]].
  { unfold filter, mbind, call_compile.
    destruct (compile ps (_flag_transform flags) lim ex) as [e|obj];
      [reflexivity|apply filter_loop_spec]. }
  unfold fnmatch_true, filter, mbind, call_compile.
  destruct (compile ps (_flag_transform flags) lim ex) as [e|obj] eqn:Ec.
  - split; [discriminate|]. intros (obj & H & _). discriminate.
  - destruct (filter_loop_spec obj fs [] (S k)) as (_ & H2 & H3). split.
    + intros out Ho. apply H2 in Ho. cbn [app] in Ho. subst out.
      assert (E : forall f,
        match fst (fnmatch f ps flags lim ex 0%nat) with
        | inr true => true
        | _ => false
        end = match_true obj f).
      { intros f. now rewrite fnmatch_run, Ec. }
      split; [apply filter_ext; intros f; now rewrite E|].
      split; [apply subseq_filter|].
      intros f. rewrite filter_In, fnmatch_run, Ec. unfold match_true. cbn [fst].
      destruct (matcher_match obj f) as [?|[|]];
        intuition (discriminate || auto).
    + intros (obj' & Ho & Hall). inv Ho. apply H3. assumption.
Qed.

End FilterFacts.

(** * [fnmatch.py] at concrete flags and names *)

Lemma flag_transform_resolution_witness :
  (0 <= 10 /\ 0 <= 11 /\ FORCEWIN = 2 ^ 10 /\ FORCEUNIX = 2 ^ 11) /\
  (Z.testbit 3077 10 = true /\ Z.testbit 3077 11 = true) /\
  _flag_transform 3077
  = Z.land (Z.ldiff 3077 (Z.lor FORCEWIN FORCEUNIX)) FLAG_MASK.
Proof.
  split; [repeat split; (lia || reflexivity)|].
  split; [split; reflexivity|].
  assert (H10 : 0 <= 10) by lia.
  assert (H11 : 0 <= 11) by lia.
  assert (Hw : FORCEWIN = 2 ^ 10) by reflexivity.
  assert (Hu : FORCEUNIX = 2 ^ 11) by reflexivity.
  destruct (flag_transform_resolution 10 11 H10 H11 Hw Hu 3077) as (H & _).
  apply H. split; reflexivity.
Defined.

Lemma filter_agrees_with_fnmatch_witness :
  fst (filter (wc := literal_wcparse)
         [str "a.txt"; str "b.txt"; str "a.txt"] (str "a.txt") 0 0%nat tt 7%nat)
  = inr [str "a.txt"; str "a.txt"] /\
  [str "a.txt"; str "a.txt"]
  = List.filter (fnmatch_true (wc := literal_wcparse) (str "a.txt") 0 0%nat tt)
      [str "a.txt"; str "b.txt"; str "a.txt"] /\
  subseq [str "a.txt"; str "a.txt"] [str "a.txt"; str "b.txt"; str "a.txt"].
Proof.
  split; [reflexivity|].
  destruct (filter_agrees_with_fnmatch (wc := literal_wcparse)
              [str "a.txt"; str "b.txt"; str "a.txt"] (str "a.txt") 0 0%nat tt 7%nat)
    as (_ & _ & H & _).
  destruct (H [str "a.txt"; str "a.txt"] eq_refl) as (H1 & H2 & _).
  split; [exact H1|exact H2].
Defined.

(** * More of [norm_pattern] *)

Section NormPatternMore.
Context {ucd : UnicodeData}.

Lemma re_bytes_re_of ib : re_bytes (re_of ib) = ib.
Proof. destruct ib; reflexivity. Qed.

Lemma norm_std_ok ib n ie pat st t rest :
  shape pat AStd t rest ->
  exists o, norm ib n true ie (MatchObj pat st AStd t) = Ok o.
Proof.
  intros H. inversion H as [| |c rest' Hc| | | | |]; subst.
  apply elem_std in Hc.
  destruct ib; destruct Hc as [-> | [-> | [-> | [-> | [-> | [-> | [-> | ->]]]]]]];
    eexists; reflexivity.
Qed.

Lemma bytes1_ok v : 0 <= v < 256 -> bytes1 v = Ok [v].
Proof.
  intros H. unfold bytes1.
  replace (0 <=? v) with true by (symmetry; apply Z.leb_le; lia).
  replace (v <? 256) with true by (symmetry; apply Z.ltb_lt; lia).
  reflexivity.
Qed.

Lemma chr_ok v : 0 <= v <= 1114111 -> chr v = Ok [v].
Proof.
  intros H. unfold chr.
  replace (0 <=? v) with true by (symmetry; apply Z.leb_le; lia).
  replace (v <=? 1114111) with true by (symmetry; apply Z.leb_le; lia).
  reflexivity.
Qed.

Lemma norm_oct_ok ib n ie pat st t rest :
  shape pat AOct t rest ->
  exists v, int ib (skipn 1 t) 8 = Ok v /\ 0 <= v < 512 /\
    norm ib n true ie (MatchObj pat st AOct t)
    = Ok [if ib then Z.land v 255 else v].
Proof.
  intros H. rewrite (norm_oct _ _ _ _ _ rest) by assumption.
  inversion H as [| | | |c ds rest' Hc Ho| | |]; subst.
  apply octals_Forall in Ho as [Hds Hlen].
  assert (Hall : Forall (fun c => is_octal c = true) (c :: ds))
    by now constructor.
  destruct (int_bound ib 8 (c :: ds)) as (v & Hv & Hr);
    [lia|discriminate| |].
  { eapply Forall_impl; [|exact Hall]. intros x Hx.
    destruct (digit_value_octal ib x Hx) as [E1 E2]. eauto. }
  assert (Hv512 : 0 <= v < 512).
  { split; [lia|]. eapply Z.lt_le_trans; [apply Hr|].
    cbn [List.length] in *. change 512 with (8 ^ 3).
    apply Z.pow_le_mono_r; lia. }
  exists v. cbn [skipn]. rewrite Hv. cbn [bind].
  split; [reflexivity|]. split; [assumption|]. destruct ib.
  - apply bytes1_ok. change 255 with (Z.ones 8). rewrite Z.land_ones by lia.
    apply Z.mod_pos_bound. reflexivity.
  - apply chr_ok. lia.
Qed.

Lemma norm_hex_val ib n ie st c ds rest :
  shape (re_of ib) AHex (92 :: c :: ds) rest ->
  exists v, int ib ds 16 = Ok v /\ 0 <= v < 16 ^ Z.of_nat (List.length ds) /\
    norm ib n true ie (MatchObj (re_of ib) st AHex (92 :: c :: ds))
    = (if ib then bytes1 v else chr v).
Proof.
  intros H. rewrite (norm_hex _ _ _ _ _ rest) by assumption.
  inversion H as [| | |c' k ds' rest' Hk Hl Hd| | | |]; subst.
  rewrite re_bytes_re_of in Hd.
  pose proof (hexes_Forall _ _ _ Hd eq_refl) as Hall.
  destruct (int_bound ib 16 ds) as (v & Hv & Hr); [lia| | |].
  { destruct ds; [|discriminate].
    destruct ib; cbn in Hk; repeat case_if; discriminate. }
  { eapply Forall_impl; [|exact Hall]. intros x Hx.
    apply digit_value_hex. exact Hx. }
  exists v. cbn [skipn]. rewrite Hv. cbn [bind]. auto.
Qed.

Lemma norm_name n ie st name rest :
  shape RE_NORM AName (92 :: 78 :: 123 :: name ++ [125]) rest ->
  norm false n true ie (MatchObj RE_NORM st AName (92 :: 78 :: 123 :: name ++ [125]))
  = lookup name.
Proof.
  intros _. cbv [norm group truthy text_of m_alt m_re m_text negb andb orb].
  cbn [List.length skipn]. rewrite length_app. cbn [List.length].
  replace (S (S (S (List.length name + 1))) - 4)%nat with (List.length name) by lia.
  rewrite firstn_app, Nat.sub_diag, firstn_all. cbn [firstn].
  now rewrite app_nil_r.
Qed.

Lemma chr_raises v e :
  chr v = Raise e ->
  (e = ValueError /\ (v < 0 \/ 1114111 < v) /\ -2147483648 <= v <= 2147483647) \/
  (e = OverflowError /\ (v < -2147483648 \/ 2147483647 < v)).
Proof.
  unfold chr.
  destruct ((0 <=? v) && (v <=? 1114111)) eqn:E1; [discriminate|].
  destruct ((-2147483648 <=? v) && (v <=? 2147483647)) eqn:E2;
    intros H; inv H; [left|right]; (split; [reflexivity|]).
  - apply andb_false_iff in E1. bools. destruct E1; bools; lia.
  - apply andb_false_iff in E2. destruct E2; bools; lia.
Qed.

(** An exception of the substitution is the exception of one replacement. *)
Lemma join_raise repl gs e :
  join repl gs = Raise e -> exists m, In (Tok m) gs /\ repl m = Raise e.
Proof.
  induction gs as [|g gs IH]; cbn [join]; [discriminate|].
  destruct g as [c|m]; cbn [replace bind].
  - destruct (join repl gs) as [o|e'] eqn:E; cbn [bind]; [discriminate|].
    intros H; inv H. destruct (IH eq_refl) as (m & Hm & Hr).
    exists m. split; [now right|assumption].
  - destruct (repl m) as [o|e'] eqn:Em; cbn [bind].
    + destruct (join repl gs) as [o'|e''] eqn:E; cbn [bind]; [discriminate|].
      intros H; inv H. destruct (IH eq_refl) as (m' & Hm & Hr).
      exists m'. split; [now right|assumption].
    + intros H; inv H. exists m. split; [now left|assumption].
Qed.


(** X1. Whatever [norm_pattern] raises, [is_raw_chars] was set and the
    exception has one of three sources.  It is the [SyntaxError] for a
    backslash and an escape letter that what follows does not complete, with
    these two units as value and their offset as position.  Or, in a text
    pattern only, it is what [unicodedata.lookup] raises for the name of a
    [\N{...}] of the pattern.  Or, in a text pattern only, it is what [chr]
    raises for a [\U] escape whose eight digits are beyond 0x10FFFF:
    [ValueError] up to 0x7FFFFFFF, [OverflowError] above.  A bytes pattern
    can raise nothing but the [SyntaxError]. *)
Theorem norm_pattern_raises (p : pattern) (n r ie : bool) (e : error) :
  norm_pattern p n r ie = Raise e ->
  r = true /\
  ((exists c pos rest, e = SyntaxError [92; c] pos /\
      is_prefix (re_of (isinstance_bytes p)) c = true /\
      skipn pos (units p) = [92; c] ++ rest /\
      completes (re_of (isinstance_bytes p)) c rest = false) \/
   (isinstance_bytes p = false /\
    exists name pos rest, lookup name = Raise e /\
      skipn pos (units p) = (92 :: 78 :: 123 :: name ++ [125]) ++ rest) \/
   (isinstance_bytes p = false /\
    exists pos ds rest v,
      skipn pos (units p) = (92 :: 85 :: ds) ++ rest /\
      List.length ds = 8%nat /\ int false ds 16 = Ok v /\ 1114111 < v /\
      e = if v <=? 2147483647 then ValueError else OverflowError)).
Proof.
  unfold norm_pattern. set (ib := isinstance_bytes p).
  destruct (negb n && negb r && negb ie); [discriminate|].
  destruct (re_sub (re_of ib) (norm ib n r ie) (units p)) as [o|e'] eqn:E;
    cbn [bind]; [discriminate|].
  intros H; inv H. unfold re_sub in E.
  apply join_raise in E as (m & Hm & Hr).
  apply segments_tok in Hm as (rest & Em & Hsk & _ & Hs). fold ib in Em, Hs.
  destruct m as [mre st a t]; cbn [m_re m_start m_alt m_text] in *.
  injection Em as ->.
  destruct r.
  2: { destruct (norm_noraw_ok ib n ie _ st _ _ _ Hs) as [o Ho]. congruence. }
  split; [reflexivity|].
  destruct a.
  - rewrite (norm_slash _ _ _ _ _ _ rest) in Hr by assumption. discriminate.
  - destruct (norm_std_ok ib n ie _ st _ _ Hs) as [o Ho]. congruence.
  - inversion Hs as [| | |c k ds rest' Hk Hl Hd| | | |]; subst.
    destruct (norm_hex_val ib n ie st c ds rest Hs) as (v & Hv & Hb & Hn).
    rewrite Hn in Hr. destruct ib.
    + cbn in Hk. destruct (c =? 120); [|discriminate]. inv Hk.
      match goal with H : _ = List.length ds |- _ => rewrite <- H in Hb end.
      rewrite bytes1_ok in Hr by (change (16 ^ Z.of_nat 2) with 256 in Hb; lia).
      discriminate.
    + right. right. split; [reflexivity|].
      apply chr_raises in Hr.
      assert (Hbig : 1114111 < v) by (destruct Hr as [(_ & ? & _)|(_ & ?)]; lia).
      assert (Hc : c = 85 /\ List.length ds = 8%nat).
      { cbn in Hk. repeat case_if; inv Hk; bools.
        - auto.
        - match goal with H : _ = List.length ds |- _ => rewrite <- H in Hb end.
          change (16 ^ Z.of_nat 4) with 65536 in Hb. lia.
        - match goal with H : _ = List.length ds |- _ => rewrite <- H in Hb end.
          change (16 ^ Z.of_nat 2) with 256 in Hb. lia. }
      destruct Hc as [-> Hlen].
      exists st, ds, rest, v. repeat split; try assumption.
      destruct Hr as [(-> & _ & Hr)|(-> & Hr)].
      * replace (v <=? 2147483647) with true by (symmetry; apply Z.leb_le; lia).
        reflexivity.
      * replace (v <=? 2147483647) with false by (symmetry; apply Z.leb_gt; lia).
        reflexivity.
  - destruct (norm_oct_ok ib n ie _ st _ _ Hs) as (v & _ & _ & Ho). congruence.
  - inversion Hs as [| | | | |name rest' Hp Hb| |]; subst.
    destruct ib; [discriminate|]. cbn [re_of] in Hr, Hs.
    rewrite (norm_name n ie st name rest Hs) in Hr.
    right. left. split; [reflexivity|]. eauto.
  - rewrite (norm_other _ _ _ _ _ _ rest) in Hr by assumption. discriminate.
  - rewrite (norm_prefix _ _ _ _ _ rest) in Hr by assumption. inv Hr.
    inversion Hs as [| | | | | | |c rest' Hc Hn]; subst.
    left. exists c, st, rest. auto.
Qed.

(** X2. With [ignore_escape], what [norm_pattern] returns is what comes
    before a match replaced, the replacement of the match, and what comes
    after it replaced, where the replacement of a match of the
    any-other-character alternative is a backslash and the match, whether or
    not [is_raw_chars] is set; so it is, without [is_raw_chars], for every
    match that is neither a separator nor a standard escape; and that of a
    separator or a standard escape is what it is without [ignore_escape]. *)
Theorem ignore_escape_prefix (p q : pattern) (n r : bool)
  (pre post : list segment) (m : re_match) :
  segments p = pre ++ Tok m :: post ->
  norm_pattern p n r true = Ok q ->
  exists o1 o2,
    join (norm (isinstance_bytes p) n r true) pre = Ok o1 /\
    join (norm (isinstance_bytes p) n r true) post = Ok o2 /\
    (m_alt m = AOther ->
       q = wrap (isinstance_bytes p) (o1 ++ (92 :: m_text m) ++ o2)) /\
    (r = false -> m_alt m <> ASlash -> m_alt m <> AStd ->
       q = wrap (isinstance_bytes p) (o1 ++ (92 :: m_text m) ++ o2)) /\
    (m_alt m = ASlash \/ m_alt m = AStd ->
       exists om, norm (isinstance_bytes p) n r false m = Ok om /\
         q = wrap (isinstance_bytes p) (o1 ++ om ++ o2)).
Proof.
  intros Hseg Hq.
  assert (Hm : In (Tok m) (segments p)) by (rewrite Hseg; apply in_elt).
  apply segments_tok in Hm as (rest & Em & _ & _ & Hs).
  destruct (norm_pattern_at _ _ _ _ _ _ _ _ Hseg Hq)
    as (o1 & om & o2 & H1 & H2 & H3 & ->).
  set (ib := isinstance_bytes p) in *.
  exists o1, o2. split; [assumption|]. split; [assumption|].
  destruct m as [mre st a t]; cbn [m_re m_start m_alt m_text] in *.
  injection Em as ->.
  split; [|split].
  - intros ->. rewrite (norm_other _ _ _ _ _ _ rest) in H2 by assumption.
    now inv H2.
  - intros -> Ha1 Ha2. rewrite (norm_noraw _ _ _ _ _ rest) in H2 by assumption.
    now inv H2.
  - intros Ha. exists om. split; [|reflexivity]. rewrite <- H2.
    destruct Ha as [-> | ->].
    + now rewrite !(norm_slash _ _ _ _ _ _ rest).
    + inversion Hs; subst. destruct ib, r; reflexivity.
Qed.

(** X3. In a text pattern with [is_raw_chars], when the matches before it
    were replaced, [\u] and four hexadecimal digits never make
    [norm_pattern] raise: their replacement in what it returns is the one
    character of their value, which is below 65536.  [\U] and eight
    hexadecimal digits are replaced by the one character of their value
    when it is at most 0x10FFFF; when it is more [norm_pattern] raises what
    [chr] raises, [ValueError] up to 0x7FFFFFFF and [OverflowError] above. *)
Theorem unicode_escape_decoding (s : list Z) (n ie : bool)
  (pre post : list segment) (m : re_match) (o1 : list Z) :
  segments (Str s) = pre ++ Tok m :: post -> m_alt m = AHex ->
  join (norm false n true ie) pre = Ok o1 ->
  (nth 1 (m_text m) 0 = ord "u" ->
     exists ds v, m_text m = ord "\" :: ord "u" :: ds /\
       List.length ds = 4%nat /\ int false ds 16 = Ok v /\ 0 <= v < 65536 /\
       (forall e, norm_pattern (Str s) n true ie = Raise e ->
          join (norm false n true ie) post = Raise e) /\
       (forall o2, join (norm false n true ie) post = Ok o2 ->
          norm_pattern (Str s) n true ie = Ok (Str (o1 ++ [v] ++ o2)))) /\
  (nth 1 (m_text m) 0 = ord "U" ->
     exists ds v, m_text m = ord "\" :: ord "U" :: ds /\
       List.length ds = 8%nat /\ int false ds 16 = Ok v /\
       0 <= v < 4294967296 /\
       (v <= 1114111 ->
          forall o2, join (norm false n true ie) post = Ok o2 ->
            norm_pattern (Str s) n true ie = Ok (Str (o1 ++ [v] ++ o2))) /\
       (1114111 < v <= 2147483647 ->
          norm_pattern (Str s) n true ie = Raise ValueError) /\
       (2147483647 < v ->
          norm_pattern (Str s) n true ie = Raise OverflowError)).
Proof.
  intros Hseg Ha H1.
  assert (Hm : In (Tok m) (segments (Str s))) by (rewrite Hseg; apply in_elt).
  apply segments_tok in Hm as (rest & Em & _ & _ & Hs).
  assert (Efast : negb n && negb true && negb ie = false)
    by now rewrite andb_false_r.
  destruct (norm_pattern_build (Str s) n true ie pre m post o1 Hseg Efast H1)
    as [Hok Hraise].
  cbn [isinstance_bytes wrap] in *.
  destruct m as [mre st a t]; cbn [m_re m_start m_alt m_text] in *.
  injection Em as ->. subst a.
  inversion Hs as [| | |c k ds rest' Hk Hl Hd| | | |]; subst.
  destruct (norm_hex_val false n ie st c ds rest Hs) as (v & Hv & Hb & Hn).
  cbn [re_of] in Hn. cbn [nth]. ords. split; intros ->; cbn in Hk; inv Hk;
    match goal with H : _ = List.length ds |- _ => rewrite <- H in Hb end;
    exists ds, v; (split; [reflexivity|]); (split; [congruence|]);
    (split; [assumption|]).
  - change (16 ^ Z.of_nat 4) with 65536 in Hb. split; [assumption|].
    rewrite chr_ok in Hn by lia. split.
    + intros e He. rewrite norm_pattern_join in He by assumption.
      cbn [isinstance_bytes] in He. rewrite Hseg, join_app, H1 in He.
      cbn [bind join replace] in He. rewrite Hn in He. cbn [bind] in He.
      destruct (join (norm false n true ie) post) as [o2|e'] eqn:E;
        cbn [bind] in He; [discriminate|].
      inv He. reflexivity.
    + intros o2 H2. apply (Hok [v] o2 Hn H2).
  - change (16 ^ Z.of_nat 8) with 4294967296 in Hb. split; [assumption|].
    split; [|split].
    + intros Hle o2 H2. rewrite chr_ok in Hn by lia. apply (Hok [v] o2 Hn H2).
    + intros Hr. apply Hraise. rewrite Hn. unfold chr.
      replace ((0 <=? v) && (v <=? 1114111)) with false
        by (symmetry; apply andb_false_iff; right; apply Z.leb_gt; lia).
      replace ((-2147483648 <=? v) && (v <=? 2147483647)) with true
        by (symmetry; apply andb_true_iff; split; apply Z.leb_le; lia).
      reflexivity.
    + intros Hr. apply Hraise. rewrite Hn. unfold chr.
      replace ((0 <=? v) && (v <=? 1114111)) with false
        by (symmetry; apply andb_false_iff; right; apply Z.leb_gt; lia).
      replace ((-2147483648 <=? v) && (v <=? 2147483647)) with false
        by (symmetry; apply andb_false_iff; right; apply Z.leb_gt; lia).
      reflexivity.
Qed.

(** X4. In a text pattern with [is_raw_chars], when the matches before it
    were replaced, a match [\N{name}] (the name: everything up to the first
    closing brace, possibly empty) is replaced in what [norm_pattern]
    returns by the string [unicodedata.lookup] returns for [name], and
    [norm_pattern] raises whatever [unicodedata.lookup] raises for it. *)
Theorem named_escape_decoding (s : list Z) (n ie : bool)
  (pre post : list segment) (m : re_match) (o1 : list Z) :
  segments (Str s) = pre ++ Tok m :: post -> m_alt m = AName ->
  join (norm false n true ie) pre = Ok o1 ->
  exists name, m_text m = str "\N{" ++ name ++ str "}" /\
    ~ In (ord "}") name /\
    (forall c o2, lookup name = Ok c ->
       join (norm false n true ie) post = Ok o2 ->
       norm_pattern (Str s) n true ie = Ok (Str (o1 ++ c ++ o2))) /\
    (forall e, lookup name = Raise e ->
       norm_pattern (Str s) n true ie = Raise e).
Proof.
  intros Hseg Ha H1.
  assert (Hm : In (Tok m) (segments (Str s))) by (rewrite Hseg; apply in_elt).
  apply segments_tok in Hm as (rest & Em & _ & _ & Hs).
  assert (Efast : negb n && negb true && negb ie = false)
    by now rewrite andb_false_r.
  destruct (norm_pattern_build (Str s) n true ie pre m post o1 Hseg Efast H1)
    as [Hok Hraise].
  cbn [isinstance_bytes re_of wrap] in *.
  destruct m as [mre st a t]; cbn [m_re m_start m_alt m_text] in *.
  injection Em as ->. subst a.
  inversion Hs as [| | | | |name rest' Hp Hb| |]; subst.
  pose proof (norm_name n ie st name rest Hs) as Hn.
  exists name. ords. split; [reflexivity|]. split; [|split].
  - clear Hs Hn Hok Hraise Hseg. induction name as [|c name IH]; [intros []|].
    cbn [app to_brace List.length] in Hb. ords.
    destruct (c =? 125) eqn:E; [discriminate|].
    destruct (to_brace (name ++ [125])) as [k|] eqn:Ek; [|discriminate].
    injection Hb as Hb. subst k. bools.
    intros [H|H]; [congruence|]. now apply IH.
  - intros c o2 Hl H2. apply (Hok c o2); [now rewrite Hn|assumption].
  - intros e Hl. apply Hraise. now rewrite Hn.
Qed.

Lemma join_noraw_length ib n pat : forall pos s o,
  join (norm ib n false false) (scan pat 0 pos s) = Ok o ->
  List.length o
  = (List.length s
     + (if n then 2 * escaped_separators (scan pat 0 pos s) else 0))%nat.
Proof.
  apply (scan_ind pat (fun pos s => forall o,
    join (norm ib n false false) (scan pat 0 pos s) = Ok o ->
    List.length o
    = (List.length s
       + (if n then 2 * escaped_separators (scan pat 0 pos s) else 0))%nat)).
  - intros pos o H. inv H. now destruct n.
  - intros pos c s Hn IH o Ho.
    rewrite (scan_lit _ _ _ _ Hn) in Ho |- *. cbn [join replace bind] in Ho.
    destruct (join (norm ib n false false) (scan pat 0 (S pos) s)) as [o'|] eqn:Ho';
      cbn [bind] in Ho; [|discriminate].
    inv Ho. specialize (IH _ eq_refl).
    unfold escaped_separators in *. cbn [List.filter is_escaped_separator List.length app].
    rewrite IH. destruct n; lia.
  - intros pos a t rest Hs IH o Ho.
    rewrite (scan_tok _ _ _ _ _ Hs) in Ho |- *. cbn [join replace] in Ho.
    destruct (norm ib n false false (MatchObj pat pos a t)) as [ot|] eqn:Hot;
      cbn [bind] in Ho; [|discriminate].
    destruct (join (norm ib n false false)
                (scan pat 0 (pos + List.length t) rest)) as [o'|] eqn:Ho';
      cbn [bind] in Ho; [|discriminate].
    inv Ho. specialize (IH _ eq_refl).
    unfold escaped_separators in *.
    cbn [List.filter is_escaped_separator m_alt m_text].
    rewrite !length_app, IH.
    destruct (alt_eq_dec a ASlash) as [->|Ha].
    + rewrite (norm_slash _ _ _ _ _ _ rest) in Hot by assumption.
      inv Hs; cbn [List.length Nat.ltb Nat.leb] in *; destruct n; inv Hot;
        cbn [List.length andb]; lia.
    + assert (E : ot = t).
      { destruct (alt_eq_dec a AStd) as [->|Ha'].
        - rewrite (norm_std_noraw _ _ _ _ _ rest) in Hot by assumption. congruence.
        - rewrite (norm_noraw _ _ _ _ _ rest) in Hot by assumption. congruence. }
      subst ot. destruct a; try congruence; destruct n; lia.
Qed.

(** X5. Without [is_raw_chars] and [ignore_escape], what [norm_pattern]
    returns is as long as the pattern when [normalize] is false, and two
    units longer for every [\\/] it matched when [normalize] is true. *)
Theorem norm_pattern_length (p q : pattern) (n : bool) :
  norm_pattern p n false false = Ok q ->
  List.length (units q)
  = (List.length (units p)
     + (if n then 2 * escaped_separators (segments p) else 0))%nat.
Proof.
  intros H. destruct n.
  - rewrite norm_pattern_join in H by reflexivity.
    destruct (join _ (segments p)) as [o|] eqn:E; cbn [bind] in H; [|discriminate].
    inv H. apply join_noraw_length in E. unfold segments, finditer.
    rewrite <- E. now destruct (isinstance_bytes p).
  - cbv in H. inv H. lia.
Qed.

(** X6. After [norm_pattern] with [normalize] and without [is_raw_chars],
    every separator match left in what it returned is the bare [/]: no
    [\\/] is matched in the output. *)
Theorem no_escaped_separator_left (p q : pattern) (m : re_match) :
  norm_pattern p true false false = Ok q ->
  In (Tok m) (segments q) -> m_alt m = ASlash -> m_text m = str "/".
Proof.
  intros Hq Hm Ha.
  assert (Hq2 : norm_pattern q true false false = Ok q).
  { apply (norm_pattern_idempotent p); [assumption|now left]. }
  apply norm_pattern_length in Hq2.
  assert (E0 : escaped_separators (segments q) = 0%nat) by lia.
  unfold escaped_separators in E0. apply length_zero_iff_nil in E0.
  assert (Hf : is_escaped_separator (Tok m) = false).
  { destruct (is_escaped_separator (Tok m)) eqn:E; [|reflexivity].
    assert (Hin : In (Tok m) (List.filter is_escaped_separator (segments q)))
      by (apply filter_In; auto).
    rewrite E0 in Hin. destruct Hin. }
  apply segments_tok in Hm as (rest & _ & _ & _ & Hs).
  cbn [is_escaped_separator] in Hf. rewrite Ha in Hf, Hs.
  inv Hs; [reflexivity|].
  match goal with H : _ = m_text m |- _ => rewrite <- H in Hf end.
  discriminate.
Qed.

End NormPatternMore.

Section AlphabetKept.
Context {ucd : UnicodeData}.

(** What [unicodedata.lookup] returns is made of code points. *)
Hypothesis lookup_ok :
  forall name o, lookup name = Ok o -> Forall (unit_ok false) o.

Lemma unit_ok_backslash ib : unit_ok ib 92.
Proof. unfold unit_ok. destruct ib; lia. Qed.

Lemma norm_units_ok ib n r ie st a t rest o :
  shape (re_of ib) a t rest -> Forall (unit_ok ib) t ->
  norm ib n r ie (MatchObj (re_of ib) st a t) = Ok o ->
  Forall (unit_ok ib) o.
Proof.
  intros Hs Ht Ho.
  assert (Hpre : Forall (unit_ok ib) (if ie then 92 :: t else t)).
  { destruct ie; [constructor; [apply unit_ok_backslash|]|]; assumption. }
  destruct (alt_eq_dec a ASlash) as [->|Ha].
  { rewrite (norm_slash _ _ _ _ _ _ rest) in Ho by assumption. inv Ho.
    destruct (n && _); [|assumption].
    repeat (apply Forall_cons; [apply unit_ok_backslash|]). constructor. }
  destruct r.
  2: { destruct (alt_eq_dec a AStd) as [->|Ha'].
       - rewrite (norm_std_noraw _ _ _ _ _ rest) in Ho by assumption. now inv Ho.
       - rewrite (norm_noraw _ _ _ _ _ rest) in Ho by assumption. now inv Ho. }
  destruct a; try congruence.
  - inversion Hs as [| |c rest' Hc| | | | |]; subst. apply elem_std in Hc.
    destruct ib; destruct Hc as [-> | [-> | [-> | [-> | [-> | [-> | [-> | ->]]]]]]];
      cbv in Ho; inv Ho; repeat constructor; unfold unit_ok; lia.
  - inversion Hs as [| | |c k ds rest' Hk Hl Hd| | | |]; subst.
    destruct (norm_hex_val ib n ie st c ds rest Hs) as (v & _ & _ & Hn).
    rewrite Hn in Ho. clear Hpre. destruct ib.
    + unfold bytes1 in Ho.
      destruct ((0 <=? v) && (v <? 256)) eqn:E; inv Ho. bools.
      repeat constructor; unfold unit_ok; lia.
    + unfold chr in Ho.
      destruct ((0 <=? v) && (v <=? 1114111)) eqn:E.
      * inv Ho. bools. repeat constructor; unfold unit_ok; lia.
      * destruct ((-2147483648 <=? v) && (v <=? 2147483647)); discriminate.
  - destruct (norm_oct_ok ib n ie _ st _ _ Hs) as (v & _ & Hv & Hn).
    rewrite Hn in Ho. inv Ho. apply Forall_cons; [|constructor].
    unfold unit_ok. destruct ib; [|lia].
    change 255 with (Z.ones 8). rewrite Z.land_ones by lia.
    pose proof (Z.mod_pos_bound v (2 ^ 8) eq_refl). change (2 ^ 8) with 256 in *.
    change (Z.ones 8) with 255. lia.
  - inversion Hs as [| | | | |name rest' Hp Hb| |]; subst.
    destruct ib; [discriminate|]. cbn [re_of] in Ho, Hs.
    rewrite (norm_name n ie st name rest Hs) in Ho.
    eapply lookup_ok; eassumption.
  - rewrite (norm_other _ _ _ _ _ _ rest) in Ho by assumption. now inv Ho.
  - rewrite (norm_prefix _ _ _ _ _ rest) in Ho by assumption. discriminate.
Qed.

Lemma join_units_ok ib n r ie : forall pos s o,
  Forall (unit_ok ib) s ->
  join (norm ib n r ie) (scan (re_of ib) 0 pos s) = Ok o ->
  Forall (unit_ok ib) o.
Proof.
  apply (scan_ind (re_of ib) (fun pos s => forall o,
    Forall (unit_ok ib) s ->
    join (norm ib n r ie) (scan (re_of ib) 0 pos s) = Ok o ->
    Forall (unit_ok ib) o)).
  - intros pos o _ H. inv H. constructor.
  - intros pos c s Hn IH o Hs Ho.
    rewrite (scan_lit _ _ _ _ Hn) in Ho. cbn [join replace bind] in Ho.
    destruct (join (norm ib n r ie) (scan (re_of ib) 0 (S pos) s)) as [o'|] eqn:Ho';
      cbn [bind] in Ho; [|discriminate].
    inv Ho. inv Hs. constructor; [assumption|]. now apply IH.
  - intros pos a t rest Hsh IH o Hs Ho.
    rewrite (scan_tok _ _ _ _ _ Hsh) in Ho. cbn [join replace] in Ho.
    destruct (norm ib n r ie (MatchObj (re_of ib) pos a t)) as [ot|] eqn:Hot;
      cbn [bind] in Ho; [|discriminate].
    destruct (join (norm ib n r ie)
                (scan (re_of ib) 0 (pos + List.length t) rest)) as [o'|] eqn:Ho';
      cbn [bind] in Ho; [|discriminate].
    inv Ho. apply Forall_app in Hs as [Ht Hr]. apply Forall_app. split.
    + eapply norm_units_ok; eassumption.
    + now apply IH.
Qed.

(** X20. [norm_pattern] keeps the alphabet: what it returns for a bytes
    pattern is a bytes pattern whose units are bytes, and what it returns
    for a text pattern is a text pattern whose units are code points, for
    every setting of the three flags. *)
Theorem norm_pattern_keeps_alphabet (p q : pattern) (n r ie : bool) :
  Forall (unit_ok (isinstance_bytes p)) (units p) ->
  norm_pattern p n r ie = Ok q ->
  isinstance_bytes q = isinstance_bytes p /\
  Forall (unit_ok (isinstance_bytes p)) (units q).
Proof.
  intros Hp Hq. unfold norm_pattern in Hq.
  destruct (negb n && negb r && negb ie); [inv Hq; auto|].
  destruct (re_sub _ _ (units p)) as [o|] eqn:E; cbn [bind] in Hq; [|discriminate].
  inv Hq. unfold re_sub, finditer in E. apply join_units_ok in E; [|assumption].
  destruct (isinstance_bytes p); auto.
Qed.

End AlphabetKept.

(** * [StringIter] *)

Lemma getitem_seq_nonneg s i :
  0 <= i -> getitem_seq s i = nth_error s (Z.to_nat i).
Proof.
  intros Hi. unfold getitem_seq.
  destruct ((0 <=? i) && (i <? Z.of_nat (List.length s))) eqn:E; [reflexivity|].
  replace (i <? 0) with false by (symmetry; apply Z.ltb_ge; lia).
  rewrite andb_false_r. symmetry. apply nth_error_None.
  apply andb_false_iff in E as [E|E]; bools; lia.
Qed.

Lemma skipn_nth_error {A} (s : list A) k c :
  nth_error s k = Some c -> skipn k s = c :: skipn (S k) s.
Proof.
  revert s; induction k as [|k IH]; intros [|x s] H; try discriminate.
  - now inv H.
  - cbn in H. cbn [skipn]. now apply IH.
Qed.

(** X7. Read to the end, an iterator whose index is an offset into its
    string yields the units from that offset on, in order, and stops with
    its index at the end: [list(StringIter(s))] is [s]. *)
Theorem drain_yields_rest (s : list Z) (i : Z) (fuel : nat) :
  0 <= i <= Z.of_nat (List.length s) ->
  (List.length s - Z.to_nat i < fuel)%nat ->
  drain fuel (MkStringIter s i)
  = (skipn (Z.to_nat i) s, MkStringIter s (Z.of_nat (List.length s))).
Proof.
  revert i; induction fuel as [|fuel IH]; intros i Hi Hf; [lia|].
  cbn [drain]. unfold next, iternext. cbn [_string _index].
  rewrite getitem_seq_nonneg by lia.
  destruct (nth_error s (Z.to_nat i)) as [c|] eqn:E.
  - assert (Hlt : (Z.to_nat i < List.length s)%nat)
      by (apply nth_error_Some; congruence).
    rewrite IH by lia.
    rewrite (skipn_nth_error _ _ _ E).
    replace (Z.to_nat (i + 1)) with (S (Z.to_nat i)) by lia. reflexivity.
  - apply nth_error_None in E.
    rewrite skipn_all2 by assumption.
    replace i with (Z.of_nat (List.length s)) at 1 by lia. reflexivity.
Qed.

(** X8. [rewind(count)] undoes [advance(count)], for any [count], exactly
    when the index before the two was not below zero; when it was,
    [rewind] raises and leaves the index where [advance] put it.  With the
    index not below zero, [rewind(1)] undoes a successful [iternext]. *)
Theorem rewind_undoes_advance (self : StringIter) (count : Z) :
  (0 <= _index self ->
     rewind count (snd (advance count self)) = (inr tt, self)) /\
  (_index self < 0 ->
     rewind count (snd (advance count self))
     = (inl RewindError, snd (advance count self))) /\
  (0 <= _index self -> forall c self',
     iternext self = (inr c, self') -> rewind 1 self' = (inr tt, self)).
Proof.
  destruct self as [s i]. cbn [_index]. unfold rewind, advance, iternext.
  cbn [snd _index _string]. split; [|split].
  - intros Hi. replace (i + count <? count) with false
      by (symmetry; apply Z.ltb_ge; lia).
    do 2 f_equal. lia.
  - intros Hi. replace (i + count <? count) with true
      by (symmetry; apply Z.ltb_lt; lia).
    reflexivity.
  - intros Hi c self'. destruct (getitem_seq s i); [|discriminate].
    intros H; inv H. cbn [_index _string].
    replace (i + 1 <? 1) with false by (symmetry; apply Z.ltb_ge; lia).
    do 2 f_equal. lia.
Qed.

(** X9. [iternext] and [rewind] never change the string.  [iternext] keeps
    the index an offset into the string; so does [rewind] by a count that
    is not negative; and whatever the index and the count, the index after
    a [rewind] that did not raise is not below zero. *)
Theorem index_stays_in_bounds (self : StringIter) (count : Z) :
  _string (snd (iternext self)) = _string self /\
  _string (snd (rewind count self)) = _string self /\
  (in_bounds self -> in_bounds (snd (iternext self))) /\
  (in_bounds self -> 0 <= count -> in_bounds (snd (rewind count self))) /\
  (fst (rewind count self) = inr tt -> 0 <= _index (snd (rewind count self))).
Proof.
  destruct self as [s i]. unfold in_bounds, iternext, rewind.
  cbn [_string _index].
  repeat split.
  - destruct (getitem_seq s i); reflexivity.
  - destruct (i <? count); reflexivity.
  - destruct (getitem_seq s i); cbn; lia.
  - destruct (getitem_seq s i) as [c|] eqn:E; cbn; try lia.
    rewrite getitem_seq_nonneg in E by lia.
    assert ((Z.to_nat i < List.length s)%nat)
      by (apply nth_error_Some; congruence). lia.
  - destruct (i <? count) eqn:E; cbn; bools; lia.
  - destruct (i <? count) eqn:E; cbn; bools; lia.
  - destruct (i <? count) eqn:E; cbn; [discriminate|]. bools. lia.
Qed.

Lemma nth_error_last {A} (x : A) (s : list A) (d : A) :
  nth_error (x :: s) (List.length s) = Some (last (x :: s) d).
Proof.
  revert x; induction s as [|y s IH]; intros x; [reflexivity|].
  cbn [List.length nth_error]. rewrite IH. reflexivity.
Qed.

(** X10. After an [iternext] that read a unit at an index not below zero,
    [previous] gives that unit.  At index 0 [previous] does not fail on a
    string that is not empty: it gives the last unit of the string; on the
    empty string it raises [IndexError]. *)
Theorem previous_after_iternext (self : StringIter) :
  (0 <= _index self -> forall c self',
     iternext self = (inr c, self') -> previous self' = (inr c, self')) /\
  (_index self = 0 -> _string self <> [] ->
     previous self = (inr (last (_string self) 0), self)) /\
  (_index self = 0 -> _string self = [] ->
     previous self = (inl IndexError, self)).
Proof.
  destruct self as [s i]. cbn [_index _string]. unfold iternext, previous.
  cbn [_index _string]. split; [|split].
  - intros Hi c self'. destruct (getitem_seq s i) as [c'|] eqn:E; [|discriminate].
    intros H; inv H. cbn [_index _string].
    replace (i + 1 - 1) with i by lia. now rewrite E.
  - intros -> Hs. unfold getitem_seq. cbn [Z.sub Z.add Z.opp Z.leb Z.compare andb].
    destruct s as [|x s]; [congruence|].
    replace ((- Z.of_nat (List.length (x :: s)) <=? -1) && (-1 <? 0)) with true
      by (symmetry; apply andb_true_iff; split;
          [apply Z.leb_le; cbn [List.length]; lia|reflexivity]).
    replace (Z.to_nat (Z.of_nat (List.length (x :: s)) + -1))
      with (List.length s) by (cbn [List.length]; lia).
    now rewrite (nth_error_last x s 0).
  - intros -> ->. reflexivity.
Qed.

Section StringIterMatchFacts.
Variable Pattern : Type.
Variable pattern_match : Pattern -> list Z -> Z -> option (Z * Z).

(** A match starts at the position given, brought into the string, and
    ends between its start and the end of the string. *)
Hypothesis span :
  forall pt s pos a b, pattern_match pt s pos = Some (a, b) ->
    a = clamp s pos /\ a <= b <= Z.of_nat (List.length s).

(** X11. [match] leaves the iterator as it is when the expression does not
    match, and puts the index at the end of the match when it does.  With
    the index an offset into the string, it stays one and does not go back,
    and [rewind] by the length of the match undoes the [match]. *)
Theorem match_moves_to_end (pt : Pattern) (self : StringIter) :
  (pattern_match pt (_string self) (_index self) = None ->
     StringIter_match Pattern pattern_match pt self = (inr None, self)) /\
  (forall a b, pattern_match pt (_string self) (_index self) = Some (a, b) ->
     exists self',
       StringIter_match Pattern pattern_match pt self = (inr (Some (a, b)), self') /\
       _string self' = _string self /\ _index self' = b /\
       (in_bounds self ->
          in_bounds self' /\ _index self <= _index self' /\
          rewind (b - a) self' = (inr tt, self))).
Proof.
  destruct self as [s i]. unfold StringIter_match. cbn [_string _index].
  split.
  - intros ->. reflexivity.
  - intros a b H. rewrite H. eexists. split; [reflexivity|].
    cbn [_string _index]. split; [reflexivity|]. split; [reflexivity|].
    unfold in_bounds. cbn [_string _index]. intros Hb.
    apply span in H as [Ha Hab]. unfold clamp in Ha.
    assert (Hai : a = i) by lia. clear Ha. subst a.
    split; [lia|]. split; [lia|].
    unfold rewind. cbn [_index _string].
    replace (b <? b - i) with false by (symmetry; apply Z.ltb_ge; lia).
    do 2 f_equal. lia.
Qed.

End StringIterMatchFacts.

(** * [_fspath] *)

(** X12. What [_fspath] returns is a [str] or a [bytes], and [_fspath]
    returns it unchanged when given it again; [_fspath] returns its
    argument itself exactly when the argument is a [str] or a [bytes]. *)
Theorem fspath_returns_str_or_bytes (path : py_value) :
  (forall r, _fspath path = inr r ->
     is_str_or_bytes r = true /\ _fspath r = inr r) /\
  (_fspath path = inr path <-> is_str_or_bytes path = true).
Proof.
  split.
  - intros r H. destruct path as [s|b|name [|e|v]]; cbn in H; try discriminate.
    + inv H. auto.
    + inv H. auto.
    + destruct (is_str_or_bytes v) eqn:E; [|discriminate]. inv H.
      split; [assumption|]. destruct r; try discriminate; reflexivity.
  - split.
    + intros H. destruct path as [s|b|name [|e|v]]; try reflexivity;
        cbn in H; try discriminate.
      destruct (is_str_or_bytes v) eqn:E; [|discriminate].
      injection H as H. rewrite H in E. discriminate.
    + intros H. destruct path; try discriminate; reflexivity.
Qed.

(** X13. [_fspath] of an object that is no [str] and no [bytes] returns
    exactly when the [__fspath__] of its type returns a [str] or a [bytes].
    It does not ask twice: an object whose [__fspath__] returns another
    object is refused with [TypeError], also when [_fspath] of that other
    object would return.  An exception raised inside [__fspath__], an
    [AttributeError] included, comes out as it is. *)
Theorem fspath_of_object (name : string) (m : py_method) :
  ((exists r, _fspath (PyObject name m) = inr r) <->
   (exists v, m = MethodReturns v /\ is_str_or_bytes v = true)) /\
  (forall v, m = MethodReturns v -> is_str_or_bytes v = false ->
     exists msg, _fspath (PyObject name m) = inl (TypeError msg)) /\
  (forall e, m = MethodRaises e -> _fspath (PyObject name m) = inl e) /\
  (m = NoMethod -> exists msg, _fspath (PyObject name m) = inl (TypeError msg)).
Proof.
  split; [|split; [|split]].
  - split.
    + intros [r H]. destruct m as [|e|v]; cbn in H; try discriminate.
      destruct (is_str_or_bytes v) eqn:E; [|discriminate]. eauto.
    + intros (v & -> & Hv). cbn. rewrite Hv. eauto.
  - intros v -> Hv. cbn. rewrite Hv. eauto.
  - intros e ->. reflexivity.
  - intros ->. cbn. eauto.
Qed.

(** * [is_hidden] *)

Lemma rfind_from_absent s c i :
  ~ In c s -> rfind_from s c i = -1.
Proof.
  revert i; induction s as [|x s IH]; intros i Hn; [reflexivity|].
  cbn [rfind_from]. rewrite IH by (intros H; apply Hn; now right).
  cbn [Z.eqb]. destruct (x =? c) eqn:E; [|reflexivity].
  bools. exfalso. apply Hn. now left.
Qed.

Lemma rfind_from_last dir name c i :
  0 <= i -> ~ In c name ->
  rfind_from (dir ++ c :: name) c i = i + Z.of_nat (List.length dir).
Proof.
  revert i; induction dir as [|x dir IH]; intros i Hi Hn.
  - cbn [app rfind_from List.length]. rewrite rfind_from_absent by assumption.
    cbn [Z.eqb]. rewrite Z.eqb_refl. cbn. lia.
  - cbn [app rfind_from]. rewrite IH by (assumption || lia).
    replace (i + 1 + Z.of_nat (List.length dir) =? -1) with false
      by (symmetry; apply Z.eqb_neq; lia).
    cbn [List.length]. lia.
Qed.

Lemma posix_basename_last ib dir name :
  ~ In 47 name ->
  posix_basename (wrap ib (dir ++ 47 :: name)) = wrap ib name.
Proof.
  intros Hn. unfold posix_basename.
  assert (Eu : forall l, units (wrap ib l) = l) by (destruct ib; reflexivity).
  assert (Ei : forall l, isinstance_bytes (wrap ib l) = ib)
    by (destruct ib; reflexivity).
  rewrite Eu, Ei. unfold rfind. rewrite rfind_from_last by (assumption || lia).
  replace (Z.to_nat (0 + Z.of_nat (List.length dir) + 1))
    with (List.length dir + 1)%nat by lia.
  rewrite skipn_app, skipn_all2 by lia.
  replace (List.length dir + 1 - List.length dir)%nat with 1%nat by lia.
  reflexivity.
Qed.

Lemma posix_basename_plain ib name :
  ~ In 47 name -> posix_basename (wrap ib name) = wrap ib name.
Proof.
  intros Hn. unfold posix_basename.
  assert (Eu : forall l, units (wrap ib l) = l) by (destruct ib; reflexivity).
  assert (Ei : forall l, isinstance_bytes (wrap ib l) = ib)
    by (destruct ib; reflexivity).
  rewrite Eu, Ei. unfold rfind. now rewrite rfind_from_absent.
Qed.

Section IsHiddenFacts.
Context {sys : System}.

(** X14. On a platform that is neither Windows nor macOS, where
    [os.path.basename] is that of [posixpath], [is_hidden] never raises and
    looks at the last component of the path alone: a path is hidden exactly
    when what follows its last [/] starts with a dot.  So a file inside a
    hidden directory is not hidden, and a path that ends in [/] is not
    hidden, whatever comes before. *)
Theorem is_hidden_posix (ib : bool) (dir name : list Z) :
  sys_platform = other_platform ->
  (forall p, os_path_basename p = posix_basename p) ->
  ~ In 47 name ->
  is_hidden (wrap ib (dir ++ 47 :: name))
  = inr (HBool (list_eqb (firstn 1 name) [46])) /\
  is_hidden (wrap ib name) = inr (HBool (list_eqb (firstn 1 name) [46])) /\
  is_hidden (wrap ib (dir ++ [47])) = inr (HBool false).
Proof.
  intros Hp Hb Hn.
  assert (Eu : forall l, units (wrap ib l) = l) by (destruct ib; reflexivity).
  assert (E : forall p,
    is_hidden p = inr (HBool (starts_with_dot (posix_basename p)))).
  { intros p. unfold is_hidden. rewrite Hb, Hp.
    destruct (starts_with_dot (posix_basename p)); reflexivity. }
  rewrite !E. rewrite posix_basename_last, posix_basename_plain by assumption.
  rewrite (posix_basename_last ib dir []) by (intros []).
  unfold starts_with_dot. rewrite !Eu. auto.
Qed.

(** X15. On Windows a path whose last component does not start with a dot
    is hidden, in truth value, exactly when bit 1 of its file attributes
    is set, by either route: through [os.lstat], which may raise, or
    through [GetFileAttributes], where the answer -1 counts as not hidden
    and any other answer gives the [int] 0 or 2, not a [bool]. *)
Theorem is_hidden_windows (path : pattern) :
  sys_platform = win32 ->
  starts_with_dot (os_path_basename path) = false ->
  (PY35 = true ->
     (forall attrs, lstat_st_file_attributes path = inr attrs ->
        is_hidden path = inr (HBool (Z.testbit attrs 1))) /\
     (forall e, lstat_st_file_attributes path = inl e ->
        is_hidden path = inl e)) /\
  (PY35 = false ->
     exists h, is_hidden path = inr h /\
       hidden_truth h
       = negb (GetFileAttributes path =? -1)
         && Z.testbit (GetFileAttributes path) 1 /\
       (GetFileAttributes path <> -1 ->
          h = HInt 0 \/ h = HInt 2)).
Proof.
  intros Hp Hd. unfold is_hidden. rewrite Hd, Hp.
  assert (Hbit : forall a, negb (Z.land a 2 =? 0) = Z.testbit a 1).
  { intros a. change (Z.land a 2) with (Z.land a (2 ^ 1)).
    rewrite land_pow2 by lia. destruct (Z.testbit a 1); reflexivity. }
  assert (Hval : forall a, Z.land a 2 = 0 \/ Z.land a 2 = 2).
  { intros a. change (Z.land a 2) with (Z.land a (2 ^ 1)).
    rewrite land_pow2 by lia. destruct (Z.testbit a 1); auto. }
  split.
  - intros ->. split.
    + intros attrs ->. now rewrite Hbit.
    + intros e ->. reflexivity.
  - intros ->. destruct (GetFileAttributes path =? -1) eqn:E.
    + exists (HBool false). split; [reflexivity|]. split; [reflexivity|].
      bools. congruence.
    + eexists. split; [reflexivity|]. cbn [hidden_truth negb andb].
      split; [apply Hbit|]. intros _.
      destruct (Hval (GetFileAttributes path)) as [-> | ->]; auto.
Qed.

End IsHiddenFacts.

(** * More of [fnmatch.py] *)

Section FlagMore.
Context {wc : Wcparse} {api : WcparseApi}.

Variables iw iu : Z.
Hypothesis Hiw : 0 <= iw.
Hypothesis Hiu : 0 <= iu.
Hypothesis Hwin : FORCEWIN = 2 ^ iw.
Hypothesis Hunix : FORCEUNIX = 2 ^ iu.

Lemma mask_force_bits :
  Z.testbit FLAG_MASK iw = true /\ Z.testbit FLAG_MASK iu = true.
Proof.
  unfold FLAG_MASK. rewrite !Z.lor_spec, Hwin, Hunix.
  rewrite !Z.pow2_bits_eqb, !Z.eqb_refl by assumption.
  rewrite !orb_true_r. auto.
Qed.

(** X16. [_flag_transform] is idempotent: resolved flags resolve to
    themselves. *)
Theorem flag_transform_idempotent (flags : Z) :
  _flag_transform (_flag_transform flags) = _flag_transform flags.
Proof.
  destruct (flag_transform_resolution iw iu Hiw Hiu Hwin Hunix flags)
    as (_ & _ & _ & Hboth & _).
  rewrite (flag_transform_eq iw iu Hiw Hiu Hwin Hunix (_flag_transform flags)).
  destruct (Z.testbit (_flag_transform flags) iu) eqn:E1,
           (Z.testbit (_flag_transform flags) iw) eqn:E2; cbn [andb];
    try (exfalso; apply Hboth; now split).
  all: unfold _flag_transform;
    now rewrite <- Z.land_assoc, Z.land_diag.
Qed.

Lemma flag_transform_unknown_bits flags extra :
  Z.land extra FLAG_MASK = 0 ->
  _flag_transform (Z.lor flags extra) = _flag_transform flags.
Proof.
  intros He.
  assert (Hbits : forall j, 0 <= j -> Z.testbit FLAG_MASK j = true ->
            Z.testbit extra j = false).
  { intros j Hj Hm. assert (E : Z.testbit (Z.land extra FLAG_MASK) j = false)
      by (rewrite He; apply Z.bits_0).
    rewrite Z.land_spec, Hm, andb_true_r in E. exact E. }
  destruct mask_force_bits as [Mw Mu].
  rewrite !(flag_transform_eq iw iu Hiw Hiu Hwin Hunix).
  rewrite !Z.lor_spec, (Hbits iw), (Hbits iu), !orb_false_r by assumption.
  destruct (Z.testbit flags iu && Z.testbit flags iw);
    apply Z.bits_inj'; intros j Hj;
    rewrite ?Z.land_spec, ?Z.ldiff_spec, ?Z.lor_spec;
    destruct (Z.testbit FLAG_MASK j) eqn:Em;
    rewrite ?andb_false_r; try reflexivity;
    now rewrite (Hbits j Hj Em), orb_false_r.
Qed.

Lemma flag_transform_both_forced flags :
  Z.testbit flags iw = false -> Z.testbit flags iu = false ->
  _flag_transform (Z.lor flags (Z.lor FORCEWIN FORCEUNIX))
  = _flag_transform flags.
Proof.
  intros Fw Fu.
  rewrite !(flag_transform_eq iw iu Hiw Hiu Hwin Hunix).
  rewrite !(Z.lor_spec flags), !(force_bits iw iu Hiw Hiu Hwin Hunix)
    by assumption.
  rewrite !Z.eqb_refl, Fw, Fu. cbn [orb andb]. rewrite orb_true_r. cbn [andb].
  apply Z.bits_inj'. intros j Hj.
  rewrite !Z.land_spec, Z.ldiff_spec, (Z.lor_spec flags),
    (force_bits iw iu Hiw Hiu Hwin Hunix) by assumption.
  destruct (Z.eqb_spec iw j) as [<-|?]; [now rewrite Fw|].
  destruct (Z.eqb_spec iu j) as [<-|?]; [now rewrite Fu|].
  cbn. now rewrite orb_false_r, andb_true_r.
Qed.

(** X17. [translate], [fnmatch], [filter] and [is_magic] see the flags
    through [_flag_transform] alone: bits outside [FLAG_MASK] added to the
    flags change nothing in what they return or raise, and neither does
    adding [FORCEWIN] and [FORCEUNIX] together to flags that have
    neither. *)
Theorem entry_points_resolve_flags (flags extra : Z) :
  Z.land extra FLAG_MASK = 0
  \/ (extra = Z.lor FORCEWIN FORCEUNIX /\
      Z.testbit flags iw = false /\ Z.testbit flags iu = false) ->
  (forall ps lim ex,
     translate ps (Z.lor flags extra) lim ex = translate ps flags lim ex) /\
  (forall f ps lim ex k,
     fnmatch f ps (Z.lor flags extra) lim ex k = fnmatch f ps flags lim ex k) /\
  (forall fs ps lim ex k,
     filter fs ps (Z.lor flags extra) lim ex k = filter fs ps flags lim ex k) /\
  (forall p, is_magic p (Z.lor flags extra) = is_magic p flags).
Proof.
  intros H.
  assert (E : _flag_transform (Z.lor flags extra) = _flag_transform flags).
  { destruct H as [H|(-> & Fw & Fu)].
    - now apply flag_transform_unknown_bits.
    - now apply flag_transform_both_forced. }
  unfold translate, fnmatch, filter, is_magic. rewrite E. auto.
Qed.

End FlagMore.

Section FilterMore.
Context {wc : Wcparse}.

Lemma filter_run fs ps flags lim ex k out :
  fst (filter fs ps flags lim ex k) = inr out <->
  exists obj, compile ps (_flag_transform flags) lim ex = inr obj /\
    (forall f, In f fs -> exists b, matcher_match obj f = inr b) /\
    out = List.filter (match_true obj) fs.
Proof.
  unfold filter, mbind, call_compile.
  destruct (compile ps (_flag_transform flags) lim ex) as [e|obj] eqn:Ec.
  - split; [discriminate|]. intros (obj & H & _). discriminate.
  - destruct (filter_loop_spec obj fs [] (S k)) as (_ & H2 & H3). split.
    + intros Ho. exists obj. split; [reflexivity|]. split.
      * clear H2 H3. revert Ho. generalize (@nil filename). generalize (S k).
        induction fs as [|f fs IH]; intros k' acc Ho g Hg; [destruct Hg|].
        cbn [filter_loop] in Ho. unfold mbind, call_match in Ho.
        destruct (matcher_match obj f) as [e|b] eqn:E; [discriminate|].
        destruct Hg as [<-|Hg]; [eauto|]. eapply IH; eassumption.
      * now apply H2.
    + intros (obj' & Ho & Hall & ->). inv Ho.
      destruct (H3 Hall) as [out Hout]. rewrite Hout.
      now rewrite (H2 out Hout).
Qed.

(** X18. [filter] of names put one after the other is what it returns for
    the first followed by what it returns for the second, when it returns
    for both; and it returns for both when it returns for the two put
    together. *)
Theorem filter_concat (fs1 fs2 : list filename) (ps : patterns) (flags : Z)
  (lim : limit) (ex : exclude) (k : nat) :
  (forall o1 o2,
     fst (filter fs1 ps flags lim ex k) = inr o1 ->
     fst (filter fs2 ps flags lim ex k) = inr o2 ->
     fst (filter (fs1 ++ fs2) ps flags lim ex k) = inr (o1 ++ o2)) /\
  (forall o,
     fst (filter (fs1 ++ fs2) ps flags lim ex k) = inr o ->
     exists o1 o2, o = o1 ++ o2 /\
       fst (filter fs1 ps flags lim ex k) = inr o1 /\
       fst (filter fs2 ps flags lim ex k) = inr o2).
Proof.
  split.
  - intros o1 o2 H1 H2.
    apply filter_run in H1 as (obj & Ec & Ha1 & ->).
    apply filter_run in H2 as (obj' & Ec' & Ha2 & ->).
    assert (obj' = obj) by congruence. subst obj'.
    apply filter_run. exists obj. split; [assumption|]. split.
    + intros f Hf. apply in_app_or in Hf as [Hf|Hf]; auto.
    + now rewrite filter_app.
  - intros o H. apply filter_run in H as (obj & Ec & Ha & ->).
    exists (List.filter (match_true obj) fs1), (List.filter (match_true obj) fs2).
    split; [apply filter_app|].
    split; apply filter_run; exists obj; (split; [assumption|]);
      (split; [|reflexivity]); intros f Hf; apply Ha; apply in_or_app; auto.
Qed.

(** X19. [filter] given what it returned returns it again.  Given no name
    at all it still compiles the patterns: it returns the empty list when
    the compiler returns and raises what the compiler raises. *)
Theorem filter_idempotent (fs : list filename) (ps : patterns) (flags : Z)
  (lim : limit) (ex : exclude) (k : nat) :
  (forall out, fst (filter fs ps flags lim ex k) = inr out ->
     fst (filter out ps flags lim ex k) = inr out) /\
  fst (filter [] ps flags lim ex k)
  = match compile ps (_flag_transform flags) lim ex with
    | inl e => inl e
    | inr _ => inr []
    end.
Proof.
  split.
  - intros out H. apply filter_run in H as (obj & Ec & Ha & ->).
    apply filter_run. exists obj. split; [assumption|]. split.
    + intros f Hf. apply filter_In in Hf as [Hf _]. auto.
    + symmetry. apply forallb_filter_id. apply forallb_forall.
      intros f Hf. now apply filter_In in Hf.
  - unfold filter, mbind, call_compile.
    destruct (compile ps (_flag_transform flags) lim ex); reflexivity.
Qed.

End FilterMore.

(** * [Immutable] *)

Section ImmutableFacts.
Variable Value : Type.
Variable type_name : string.
Variable allowed : string -> bool.

Local Abbreviation init_from := (Immutable_init_from Value type_name allowed).
Local Abbreviation init := (Immutable_init Value type_name allowed).

Lemma init_from_spec kwargs : forall self,
  NoDup (map fst kwargs) ->
  (forall k, In k (map fst kwargs) -> allowed k = true) ->
  exists obj, init_from self kwargs = inr obj /\
    (forall k v, In (k, v) kwargs -> getattr Value obj k = Some v) /\
    (forall k, ~ In k (map fst kwargs) ->
       getattr Value obj k = getattr Value self k).
Proof.
  induction kwargs as [|[k v] rest IH]; intros self Hnd Hal.
  - exists self. cbn. split; [reflexivity|]. split; [intros ? ? []|auto].
  - cbn [Immutable_init_from]. unfold object_setattr.
    rewrite (Hal k) by (now left). inversion Hnd as [|? ? Hk Hnd']; subst.
    destruct (IH ((k, v) :: self) Hnd') as (obj & Ho & Hget & Hrest).
    { intros k' Hk'. apply Hal. now right. }
    exists obj. split; [assumption|]. split.
    + intros k' v' [H|H].
      * inv H. rewrite (Hrest k') by assumption. cbn [getattr].
        now rewrite String.eqb_refl.
      * now apply Hget.
    + intros k' Hk'. rewrite Hrest by (intros H; apply Hk'; now right).
      cbn [getattr]. destruct (String.eqb k k') eqn:E; [|reflexivity].
      apply String.eqb_eq in E. subst. exfalso. apply Hk'. now left.
Qed.

Lemma init_from_raises kwargs : forall self k,
  In k (map fst kwargs) -> allowed k = false ->
  exists before name value after,
    kwargs = before ++ (name, value) :: after /\
    (forall k', In k' (map fst before) -> allowed k' = true) /\
    allowed name = false /\
    init_from self kwargs = inl (AttributeError (no_attribute type_name name)).
Proof.
  induction kwargs as [|[k v] rest IH]; intros self k0 Hin Hk0; [destruct Hin|].
  cbn [Immutable_init_from]. unfold object_setattr.
  destruct (allowed k) eqn:Ek.
  - destruct Hin as [<-|Hin]; [cbn in Hk0; congruence|].
    destruct (IH ((k, v) :: self) k0 Hin Hk0)
      as (before & name & value & after & -> & Hb & Hn & Hr).
    exists ((k, v) :: before), name, value, after.
    split; [reflexivity|]. split; [|split; assumption].
    intros k' [<-|Hk']; [assumption|now apply Hb].
  - exists [], k, v, rest. split; [reflexivity|].
    split; [intros ? []|]. split; [assumption|reflexivity].
Qed.


End ImmutableFacts.

(** * The further properties at concrete inputs *)

Lemma norm_pattern_raises_witness :
  norm_pattern (Str (str "a\UFFFFFFFF")) false true false = Raise OverflowError /\
  exists pos ds rest v,
    skipn pos (str "a\UFFFFFFFF") = (92 :: 85 :: ds) ++ rest /\
    List.length ds = 8%nat /\ int false ds 16 = Ok v /\ 1114111 < v /\
    OverflowError = if v <=? 2147483647 then ValueError else OverflowError.
Proof.
  split; [reflexivity|].
  destruct (norm_pattern_raises (Str (str "a\UFFFFFFFF")) false true false
              OverflowError eq_refl) as (_ & [H | [H | H]]).
  - destruct H as (c & pos & rest & H & _). discriminate H.
  - destruct H as (_ & name & pos & rest & H & _). exfalso.
    cbn [lookup small_ucd] in H.
    destruct (existsb _ name); [discriminate H|].
    destruct (list_eqb name _); [discriminate H|].
    destruct (list_eqb name _); discriminate H.
  - destruct H as (_ & H). exact H.
Defined.

Lemma ignore_escape_prefix_witness :
  segments (Str (str "a\*b"))
  = [Lit 97] ++ Tok (MatchObj RE_NORM 1 AOther (str "\*")) :: [Lit 98] /\
  norm_pattern (Str (str "a\*b")) false true true = Ok (Str (str "a\\*b")) /\
  exists o1 o2,
    join (norm false false true true) [Lit 97] = Ok o1 /\
    join (norm false false true true) [Lit 98] = Ok o2 /\
    Str (str "a\\*b") = wrap false (o1 ++ (92 :: str "\*") ++ o2).
Proof.
  split; [reflexivity|]. split; [reflexivity|].
  destruct (ignore_escape_prefix (Str (str "a\*b")) (Str (str "a\\*b"))
              false true [Lit 97] [Lit 98]
              (MatchObj RE_NORM 1 AOther (str "\*")))
    as (o1 & o2 & H1 & H2 & H3 & _); [reflexivity|reflexivity|].
  exists o1, o2. split; [exact H1|]. split; [exact H2|].
  apply H3. reflexivity.
Defined.

Lemma unicode_escape_decoding_witness :
  segments (Str (str "a\U0001F600b"))
  = [Lit 97] ++ Tok (MatchObj RE_NORM 1 AHex (str "\U0001F600")) :: [Lit 98] /\
  join (norm false false true false) [Lit 97] = Ok [97] /\
  exists ds v, str "\U0001F600" = ord "\" :: ord "U" :: ds /\
    List.length ds = 8%nat /\ int false ds 16 = Ok v /\
    0 <= v < 4294967296 /\
    (v <= 1114111 ->
       forall o2, join (norm false false true false) [Lit 98] = Ok o2 ->
         norm_pattern (Str (str "a\U0001F600b")) false true false
         = Ok (Str ([97] ++ [v] ++ o2))) /\
    (1114111 < v <= 2147483647 ->
       norm_pattern (Str (str "a\U0001F600b")) false true false
       = Raise ValueError) /\
    (2147483647 < v ->
       norm_pattern (Str (str "a\U0001F600b")) false true false
       = Raise OverflowError).
Proof.
  split; [reflexivity|]. split; [reflexivity|].
  destruct (unicode_escape_decoding (str "a\U0001F600b") false false
              [Lit 97] [Lit 98]
              (MatchObj RE_NORM 1 AHex (str "\U0001F600")) [97])
    as (_ & H); [reflexivity|reflexivity|reflexivity|].
  apply H. reflexivity.
Defined.

Lemma named_escape_decoding_witness :
  segments (Str (str "a\N{REVERSE SOLIDUS}b"))
  = [Lit 97] ++ Tok (MatchObj RE_NORM 1 AName (str "\N{REVERSE SOLIDUS}"))
      :: [Lit 98] /\
  join (norm false false true false) [Lit 97] = Ok [97] /\
  exists name, str "\N{REVERSE SOLIDUS}" = str "\N{" ++ name ++ str "}" /\
    ~ In (ord "}") name /\
    (forall c o2, lookup name = Ok c ->
       join (norm false false true false) [Lit 98] = Ok o2 ->
       norm_pattern (Str (str "a\N{REVERSE SOLIDUS}b")) false true false
       = Ok (Str ([97] ++ c ++ o2))) /\
    (forall e, lookup name = Raise e ->
       norm_pattern (Str (str "a\N{REVERSE SOLIDUS}b")) false true false
       = Raise e).
Proof.
  split; [reflexivity|]. split; [reflexivity|].
  apply (named_escape_decoding (str "a\N{REVERSE SOLIDUS}b") false false
           [Lit 97] [Lit 98]
           (MatchObj RE_NORM 1 AName (str "\N{REVERSE SOLIDUS}")) [97]);
    reflexivity.
Defined.

Lemma norm_pattern_length_witness :
  norm_pattern (Str (str "a\/b\/c/d")) true false false
  = Ok (Str (str "a\\\\b\\\\c/d")) /\
  List.length (str "a\\\\b\\\\c/d")
  = (List.length (str "a\/b\/c/d")
     + 2 * escaped_separators (segments (Str (str "a\/b\/c/d"))))%nat.
Proof.
  split; [reflexivity|].
  apply (norm_pattern_length (Str (str "a\/b\/c/d"))
           (Str (str "a\\\\b\\\\c/d")) true).
  reflexivity.
Defined.

Lemma no_escaped_separator_left_witness :
  norm_pattern (Str (str "a\/b/c")) true false false
  = Ok (Str (str "a\\\\b/c")) /\
  In (Tok (MatchObj RE_NORM 6 ASlash (str "/")))
     (segments (Str (str "a\\\\b/c"))) /\
  str "/" = str "/".
Proof.
  split; [reflexivity|]. split; [in_list|].
  apply (no_escaped_separator_left (Str (str "a\/b/c")) (Str (str "a\\\\b/c"))
           (MatchObj RE_NORM 6 ASlash (str "/")));
    [reflexivity|in_list|reflexivity].
Defined.

Lemma drain_yields_rest_witness :
  drain 4 (MkStringIter (str "a*b") 1)
  = (skipn (Z.to_nat 1) (str "a*b"),
     MkStringIter (str "a*b") (Z.of_nat (List.length (str "a*b")))).
Proof.
  apply (drain_yields_rest (str "a*b") 1 4); [vm_compute; intuition discriminate|].
  vm_compute. lia.
Defined.

Lemma rewind_undoes_advance_witness :
  rewind 2 (snd (advance 2 (MkStringIter (str "abc") 1)))
  = (inr tt, MkStringIter (str "abc") 1) /\
  rewind 2 (snd (advance 2 (MkStringIter (str "abc") (-1))))
  = (inl RewindError, snd (advance 2 (MkStringIter (str "abc") (-1)))).
Proof.
  destruct (rewind_undoes_advance (MkStringIter (str "abc") 1) 2) as (H1 & _).
  destruct (rewind_undoes_advance (MkStringIter (str "abc") (-1)) 2)
    as (_ & H2 & _).
  split; [apply H1; cbn; lia|apply H2; cbn; lia].
Defined.

Lemma index_stays_in_bounds_witness :
  in_bounds (MkStringIter (str "abc") 3) /\
  in_bounds (snd (iternext (MkStringIter (str "abc") 3))) /\
  in_bounds (snd (rewind 2 (MkStringIter (str "abc") 3))).
Proof.
  assert (H : in_bounds (MkStringIter (str "abc") 3))
    by (vm_compute; intuition discriminate).
  destruct (index_stays_in_bounds (MkStringIter (str "abc") 3) 2)
    as (_ & _ & H1 & H2 & _).
  split; [exact H|]. split; [apply H1; exact H|apply H2; [exact H|lia]].
Defined.

Lemma previous_after_iternext_witness :
  previous (snd (iternext (StringIter_init (str "abc"))))
  = (inr 97, snd (iternext (StringIter_init (str "abc")))) /\
  previous (StringIter_init (str "abc"))
  = (inr 99, StringIter_init (str "abc")).
Proof.
  destruct (previous_after_iternext (StringIter_init (str "abc")))
    as (H1 & H2 & _).
  split.
  - apply H1; [cbn; lia|reflexivity].
  - apply H2; [reflexivity|discriminate].
Defined.

Lemma any_unit_span :
  forall pt s pos a b, any_unit pt s pos = Some (a, b) ->
    a = clamp s pos /\ a <= b <= Z.of_nat (List.length s).
Proof.
  intros pt s pos a b. unfold any_unit.
  destruct (clamp s pos <? Z.of_nat (List.length s)) eqn:E; [|discriminate].
  intros H. injection H as <- <-. apply Z.ltb_lt in E. lia.
Defined.

Lemma match_moves_to_end_witness :
  exists self',
    StringIter_match unit any_unit tt (MkStringIter (str "abc") 1)
    = (inr (Some (1, 2)), self') /\
    _string self' = str "abc" /\ _index self' = 2 /\
    (in_bounds (MkStringIter (str "abc") 1) ->
       in_bounds self' /\ 1 <= _index self' /\
       rewind (2 - 1) self' = (inr tt, MkStringIter (str "abc") 1)).
Proof.
  destruct (match_moves_to_end unit any_unit any_unit_span tt
              (MkStringIter (str "abc") 1)) as (_ & H).
  apply (H 1 2). reflexivity.
Defined.

Lemma fspath_returns_str_or_bytes_witness :
  _fspath (PyObject "Path" (MethodReturns (PyStr (str "a/b"))))
  = inr (PyStr (str "a/b")) /\
  is_str_or_bytes (PyStr (str "a/b")) = true /\
  _fspath (PyStr (str "a/b")) = inr (PyStr (str "a/b")).
Proof.
  split; [reflexivity|].
  destruct (fspath_returns_str_or_bytes
              (PyObject "Path" (MethodReturns (PyStr (str "a/b"))))) as (H & _).
  apply H. reflexivity.
Defined.

Lemma fspath_of_object_witness :
  _fspath (PyObject "Inner" (MethodReturns (PyStr (str "a"))))
  = inr (PyStr (str "a")) /\
  exists msg,
    _fspath (PyObject "Outer"
               (MethodReturns (PyObject "Inner" (MethodReturns (PyStr (str "a"))))))
    = inl (TypeError msg).
Proof.
  split; [reflexivity|].
  destruct (fspath_of_object "Outer"
              (MethodReturns (PyObject "Inner" (MethodReturns (PyStr (str "a"))))))
    as (_ & H & _).
  apply (H (PyObject "Inner" (MethodReturns (PyStr (str "a"))))); reflexivity.
Defined.

Lemma is_hidden_posix_witness :
  ~ In 47 (str "config") /\
  is_hidden (sys := posix_system) (Str (str ".git" ++ 47 :: str "config"))
  = inr (HBool false) /\
  is_hidden (sys := posix_system) (Str (str ".git" ++ [47])) = inr (HBool false).
Proof.
  assert (Hn : ~ In 47 (str "config")) by (vm_compute; intuition discriminate).
  split; [exact Hn|].
  destruct (is_hidden_posix (sys := posix_system) false (str ".git") (str "config")
              eq_refl (fun p => eq_refl) Hn) as (H1 & _ & H3).
  split; [exact H1|exact H3].
Defined.

Lemma is_hidden_windows_witness :
  exists h,
    is_hidden (sys := windows_system) (Str (str "C:/pagefile.sys")) = inr h /\
    hidden_truth h = true /\ (h = HInt 0 \/ h = HInt 2).
Proof.
  destruct (is_hidden_windows (sys := windows_system)
              (Str (str "C:/pagefile.sys")) eq_refl eq_refl) as (_ & H).
  destruct (H eq_refl) as (h & H1 & H2 & H3).
  exists h. split; [exact H1|]. split; [exact H2|].
  apply H3. discriminate.
Defined.

Lemma flag_transform_idempotent_witness :
  (0 <= 10 /\ 0 <= 11 /\ FORCEWIN = 2 ^ 10 /\ FORCEUNIX = 2 ^ 11) /\
  _flag_transform (_flag_transform 7173) = _flag_transform 7173.
Proof.
  assert (H10 : 0 <= 10) by lia.
  assert (H11 : 0 <= 11) by lia.
  assert (Hw : FORCEWIN = 2 ^ 10) by reflexivity.
  assert (Hu : FORCEUNIX = 2 ^ 11) by reflexivity.
  split; [auto|].
  apply (flag_transform_idempotent 10 11 H10 H11 Hw Hu 7173).
Defined.

Lemma entry_points_resolve_flags_witness :
  Z.land 4096 FLAG_MASK = 0 /\
  fnmatch (wc := literal_wcparse) (str "a.txt") (str "a.txt") (Z.lor 4 4096)
    0%nat tt 0%nat
  = fnmatch (wc := literal_wcparse) (str "a.txt") (str "a.txt") 4 0%nat tt 0%nat /\
  is_magic (api := literal_api) (Str (str "*")) (Z.lor 4 4096)
  = is_magic (api := literal_api) (Str (str "*")) 4.
Proof.
  assert (H10 : 0 <= 10) by lia.
  assert (H11 : 0 <= 11) by lia.
  assert (Hw : FORCEWIN = 2 ^ 10) by reflexivity.
  assert (Hu : FORCEUNIX = 2 ^ 11) by reflexivity.
  assert (He : Z.land 4096 FLAG_MASK = 0) by reflexivity.
  split; [exact He|].
  destruct (entry_points_resolve_flags (api := literal_api)
              10 11 H10 H11 Hw Hu 4 4096 (or_introl He))
    as (_ & H2 & _ & H4).
  split; [apply H2|apply H4].
Defined.

Lemma filter_concat_witness :
  fst (filter (wc := literal_wcparse)
         ([str "a"; str "b"] ++ [str "a"]) (str "a") 0 0%nat tt 0%nat)
  = inr ([str "a"] ++ [str "a"]).
Proof.
  destruct (filter_concat (wc := literal_wcparse)
              [str "a"; str "b"] [str "a"] (str "a") 0 0%nat tt 0%nat)
    as (H & _).
  apply H; reflexivity.
Defined.

Lemma filter_idempotent_witness :
  fst (filter (wc := literal_wcparse)
         [str "a"; str "b"; str "a"] (str "a") 0 0%nat tt 0%nat)
  = inr [str "a"; str "a"] /\
  fst (filter (wc := literal_wcparse) [str "a"; str "a"] (str "a") 0 0%nat tt 0%nat)
  = inr [str "a"; str "a"].
Proof.
  split; [reflexivity|].
  destruct (filter_idempotent (wc := literal_wcparse)
              [str "a"; str "b"; str "a"] (str "a") 0 0%nat tt 0%nat)
    as (H & _).
  apply H. reflexivity.
Defined.

Lemma small_lookup_ok :
  forall name o, lookup name = Ok o -> Forall (unit_ok false) o.
Proof.
  intros name o. cbn [lookup small_ucd].
  destruct (existsb _ name); [discriminate|].
  destruct (list_eqb name (str "REVERSE SOLIDUS")).
  - intros H. injection H as <-. repeat (apply Forall_cons; [vm_compute; intuition discriminate|]). constructor.
  - destruct (list_eqb name (str "LATIN SMALL LETTER A")); [|discriminate].
    intros H. injection H as <-. repeat (apply Forall_cons; [vm_compute; intuition discriminate|]). constructor.
Defined.

Lemma norm_pattern_keeps_alphabet_witness :
  norm_pattern (Bytes (str "a\777\/")) true true false
  = Ok (Bytes (97 :: 255 :: str "\\\\")) /\
  Forall (unit_ok true) (97 :: 255 :: str "\\\\").
Proof.
  split; [reflexivity|].
  destruct (norm_pattern_keeps_alphabet small_lookup_ok
              (Bytes (str "a\777\/")) (Bytes (97 :: 255 :: str "\\\\"))
              true true false) as (_ & H).
  - repeat (apply Forall_cons; [vm_compute; intuition discriminate|]). constructor.
  - reflexivity.
  - exact H.
Defined.

